(** * Task normalisation and reminder scheduling: a shallow embedding

    The development follows three source files of the application:

    - [src/components/tasks/types.ts]: the [Task] interface;
    - [src/lib/api.ts]: the storage date helpers, the team lookups, team
      creation and the reminder scheduler;
    - [src/components/tasks/TaskEditDialog.tsx]: the submit handler of the
      task edit dialog.

    Part I embeds the JavaScript values the code manipulates (strings as
    sequences of UTF-16 code units, numbers produced by [parseInt], [Date]
    time values), the two library calls the code relies on ([format] of
    date-fns and the Supabase client) and then the functions of the
    application themselves.  Part II states and proves their properties. *)

From Stdlib Require Import String Ascii NArith ZArith Bool Lia List.
From Stdlib Require DecimalN.
Import ListNotations.

Set Implicit Arguments.

(* ================================================================= *)
(** * Part I: definitions *)
(* ================================================================= *)

(** ** JavaScript strings *)

Module JS.

(** A string value is a finite sequence of 16-bit code units. *)
Definition jsstring := list N.

(** Literals of the development are written as ASCII text. *)
Definition js (s : string) : jsstring :=
  map N_of_ascii (list_ascii_of_string s).

(** [===] on two strings: same code units in the same order. *)
Fixpoint str_eqb (a b : jsstring) : bool :=
  match a, b with
  | [], [] => true
  | x :: a', y :: b' => (x =? y)%N && str_eqb a' b'
  | _, _ => false
  end.

(** An optional property of an object of type [any]: missing ([undefined]),
    [null], or a value. *)
Inductive field (A : Type) : Type :=
| Undefined
| Null
| Val (a : A).
Arguments Undefined {A}.
Arguments Null {A}.

(** ToBoolean on a string-valued property: only a non-empty string is
    truthy. *)
Definition truthy (f : field jsstring) : bool :=
  match f with
  | Val (_ :: _) => true
  | _ => false
  end.

(** WhiteSpace and LineTerminator code points of ECMAScript, the set that
    [trim] and [parseInt] strip:
    TAB, LF, VT, FF, CR, SP, NBSP, U+1680, U+2000..U+200A, U+2028, U+2029,
    U+202F, U+205F, U+3000, U+FEFF. *)
Definition isWhiteSpace (c : N) : bool :=
  ((9 <=? c) && (c <=? 13) || (c =? 32) || (c =? 160) || (c =? 5760)
   || (8192 <=? c) && (c <=? 8202) || (c =? 8232) || (c =? 8233)
   || (c =? 8239) || (c =? 8287) || (c =? 12288) || (c =? 65279))%N.

Fixpoint trimStart (s : jsstring) : jsstring :=
  match s with
  | c :: s' => if isWhiteSpace c then trimStart s' else s
  | [] => []
  end.

Definition trimEnd (s : jsstring) : jsstring := rev (trimStart (rev s)).

(** [String.prototype.trim] *)
Definition trim (s : jsstring) : jsstring := trimEnd (trimStart s).

(** [s.split(sep)] for a separator of one code unit: the pieces between
    the occurrences of [sep], in order; there is always at least one
    piece. *)
Fixpoint split (sep : N) (s : jsstring) : list jsstring :=
  match s with
  | [] => [[]]
  | c :: s' =>
      if (c =? sep)%N then [] :: split sep s'
      else match split sep s' with
           | p :: ps => (c :: p) :: ps
           | [] => [[c]]
           end
  end.

Definition comma : N := 44.

(** [s.substring(start, end)] for non-negative integer arguments: both are
    clamped to the length and swapped when [start > end]. *)
Definition substring (a b : nat) (s : jsstring) : jsstring :=
  let a' := Nat.min a (length s) in
  let b' := Nat.min b (length s) in
  let lo := Nat.min a' b' in
  let hi := Nat.max a' b' in
  firstn (hi - lo) (skipn lo s).

Definition isAscii (c : N) : bool := (c <? 128)%N.

(** Upper-casing of one ASCII code unit: only [a]..[z] change. *)
Definition upperAscii (c : N) : N :=
  if ((97 <=? c) && (c <=? 122))%N then (c - 32)%N else c.

(** ** Numbers produced by [parseInt]

    The Number values [parseInt] can return: [NaN], the two infinities,
    negative zero, and [Num z] for the Number whose value is the integer
    [z].  Numbers are IEEE doubles: every integer up to 2^53 in size is
    one, and a larger integer is one only when it fits 53 significant
    bits, so [parseInt] rounds (see [roundToDouble]). *)
Inductive Number : Type :=
| NaN
| Num (z : Z)
| NegZero
| PosInfinity
| NegInfinity.

(** 2^53: up to here every natural number is a Number. *)
Definition maxExact : N := 9007199254740992.

(** The double nearest to a natural number, ties to the even significand
    (53 bits); [None] when the result is beyond the largest double, that
    is when it reaches 2^1024. *)
Definition roundToDouble (v : N) : option N :=
  if (v <=? maxExact)%N then Some v
  else
    let e := (N.log2 v - 52)%N in
    let q := (v / 2 ^ e)%N in
    let r := (v mod 2 ^ e)%N in
    let half := (2 ^ (e - 1))%N in
    let q' := if ((half <? r) || (r =? half) && N.odd q)%N
              then (q + 1)%N else q in
    let w := (q' * 2 ^ e)%N in
    if (1024 <=? N.log2 w)%N then None else Some w.

(** The Number for [sign * mathInt], the last step of [parseInt]: the
    nearest double, negative zero for a zero with a minus sign. *)
Definition numberOf (negative : bool) (value : N) : Number :=
  match roundToDouble value with
  | None => if negative then NegInfinity else PosInfinity
  | Some 0%N => if negative then NegZero else Num 0
  | Some w => Num (if negative then - Z.of_N w else Z.of_N w)
  end.

Definition digitValue (c : N) : option N :=
  if ((48 <=? c) && (c <=? 57))%N then Some (c - 48)%N else None.

Definition isDigit (c : N) : bool :=
  match digitValue c with Some _ => true | None => false end.

(** The values of the longest prefix of decimal digits. *)
Fixpoint leadingDigits (s : jsstring) : list N :=
  match s with
  | c :: s' =>
      match digitValue c with
      | Some d => d :: leadingDigits s'
      | None => []
      end
  | [] => []
  end.

Definition mathInt (ds : list N) : N :=
  fold_left (fun acc d => (10 * acc + d)%N) ds 0%N.

Definition minus_sign : N := 45.
Definition plus_sign : N := 43.

(** Steps 3 and 4 of [parseInt]: the sign, and the text after it. *)
Definition splitSign (s : jsstring) : bool * jsstring :=
  match s with
  | c :: r =>
      if (c =? minus_sign)%N then (true, r)
      else if (c =? plus_sign)%N then (false, r)
      else (false, s)
  | [] => (false, [])
  end.

(** [parseInt(s, 10)]: leading white space is skipped, one sign is read,
    then the longest run of decimal digits; what follows the digits is
    ignored, and no digit at all gives [NaN].  The value of the digits is
    rounded to a double; the digits are read in full, as the engines do
    (the standard also lets an engine read the digits after the twentieth
    as zeros). *)
Definition parseInt10 (s : jsstring) : Number :=
  let (neg, r) := splitSign (trimStart s) in
  match leadingDigits r with
  | [] => NaN
  | ds => numberOf neg (mathInt ds)
  end.

End JS.
Import JS.

(** ** Errors and outcomes

    A call either returns a value or throws.  [RangeError] and [TypeError]
    are the built-in errors the modelled code can meet; [RemoteError]
    stands for an error object handed back by the Supabase client. *)

Inductive Error : Type :=
| RangeError
| TypeError
| RemoteError (message : jsstring).

Inductive Outcome (A : Type) : Type :=
| Returned (a : A)
| Threw (e : Error).
Arguments Threw {A} e.

(** ** Calendar arithmetic of [Date]

    A time value counts milliseconds from 1970-01-01T00:00:00Z.  The day
    number of a time value and the proleptic Gregorian date of a day number
    are computed in closed form, era by era (an era is 400 years, that is
    146097 days, and starts on a first of March). *)

Module Cal.
Local Open Scope Z_scope.

Definition msPerDay : Z := 86400000.

(** [Day(t)] of ECMAScript: floor of [t / msPerDay]. *)
Definition Day (t : Z) : Z := t / msPerDay.

Definition isLeap (y : Z) : bool :=
  (y mod 4 =? 0) && negb (y mod 100 =? 0) || (y mod 400 =? 0).

Definition daysInMonth (y m : Z) : Z :=
  if m =? 2 then (if isLeap y then 29 else 28)
  else if (m =? 4) || (m =? 6) || (m =? 9) || (m =? 11) then 30
  else 31.

(** [DayFromYear(y)] of ECMAScript: the day number of January 1st. *)
Definition DayFromYear (y : Z) : Z :=
  365 * (y - 1970) + (y - 1969) / 4 - (y - 1901) / 100 + (y - 1601) / 400.

(** Day number of the date [y]-[m]-[d] ([m] from 1 to 12): what [MakeDay]
    computes. *)
Definition daysFromCivil (y m d : Z) : Z :=
  let y' := if m <=? 2 then y - 1 else y in
  let era := y' / 400 in
  let yoe := y' - era * 400 in
  let mp := if m <=? 2 then m + 9 else m - 3 in
  let doy := (153 * mp + 2) / 5 + d - 1 in
  let doe := yoe * 365 + yoe / 4 - yoe / 100 + doy in
  era * 146097 + doe - 719468.

(** Position in the era of a day of the era: year of era, month counted
    from March, day of month. *)
Definition civilOfEraDay (doe : Z) : Z * Z * Z :=
  let yoe := (doe - doe / 1460 + doe / 36524 - doe / 146096) / 365 in
  let doy := doe - (365 * yoe + yoe / 4 - yoe / 100) in
  let mp := (5 * doy + 2) / 153 in
  (yoe, mp, doy - (153 * mp + 2) / 5 + 1).

(** Year, month (1 to 12) and day of month of a day number: what
    [YearFromTime], [MonthFromTime] and [DateFromTime] compute. *)
Definition civilFromDays (z : Z) : Z * Z * Z :=
  let z' := z + 719468 in
  let era := z' / 146097 in
  let '(yoe, mp, d) := civilOfEraDay (z' - era * 146097) in
  let m := if mp <? 10 then mp + 3 else mp - 9 in
  let y := yoe + era * 400 in
  (if m <=? 2 then y + 1 else y, m, d).

End Cal.

(** ** The host environment

    What the engine decides and the code cannot see: the offset of local
    time, upper-casing outside ASCII, and the parsing of date texts other
    than the date-only ISO form. *)

(** The time value of a [Date] object: [NaN] for an invalid date, else an
    integral number of milliseconds. *)
Inductive Date : Type :=
| InvalidDate
| DateAt (t : Z).

Class Host : Type := {
  (** offset of local time from UTC, in milliseconds, at UTC time [t] *)
  LocalTZA : Z -> Z;
  (** [toUpperCase] on a string that has a code unit outside ASCII *)
  toUpperCase_unicode : jsstring -> jsstring;
  (** [new Date(s)] for a text that is not a date-only ISO text of a
      calendar date *)
  Date_parse_other : jsstring -> Date
}.

Module JSDate.
Local Open Scope Z_scope.

Definition LocalTime `{Host} (t : Z) : Z := t + LocalTZA t.

(** [getFullYear()], [getMonth() + 1] and [getDate()] of a valid date. *)
Definition localYMD `{Host} (t : Z) : Z * Z * Z :=
  Cal.civilFromDays (Cal.Day (LocalTime t)).

(** [getUTCFullYear()], [getUTCMonth() + 1] and [getUTCDate()]. *)
Definition utcYMD (t : Z) : Z * Z * Z := Cal.civilFromDays (Cal.Day t).

Definition hyphen : N := 45.

(** A run of decimal digits and nothing else. *)
Definition parseDigits (s : jsstring) : option N :=
  match s with
  | [] => None
  | _ => if forallb isDigit s then Some (mathInt (leadingDigits s)) else None
  end.

(** The date-only form [YYYY-MM-DD] of the date-time string format. *)
Definition parseDateOnly (s : jsstring) : option (Z * Z * Z) :=
  match s with
  | [y1; y2; y3; y4; h1; m1; m2; h2; d1; d2] =>
      if ((h1 =? hyphen) && (h2 =? hyphen))%N then
        match parseDigits [y1; y2; y3; y4], parseDigits [m1; m2],
              parseDigits [d1; d2] with
        | Some y, Some m, Some d => Some (Z.of_N y, Z.of_N m, Z.of_N d)
        | _, _, _ => None
        end
      else None
  | _ => None
  end.

(** [new Date(s)]: a date-only text of a calendar date denotes midnight
    UTC of that date; every other text is left to the host. *)
Definition newDate `{Host} (s : jsstring) : Date :=
  match parseDateOnly s with
  | Some (y, m, d) =>
      if (1 <=? m) && (m <=? 12) && (1 <=? d) && (d <=? Cal.daysInMonth y m)
      then DateAt (Cal.daysFromCivil y m d * Cal.msPerDay)
      else Date_parse_other s
  | None => Date_parse_other s
  end.

(** [String.prototype.toUpperCase]: on ASCII text only the letters [a] to
    [z] change; the rest of Unicode is the host's. *)
Definition toUpperCase `{Host} (s : jsstring) : jsstring :=
  if forallb isAscii s then map upperAscii s else toUpperCase_unicode s.

End JSDate.
Import JSDate.

(** ** [format] of date-fns

    The two patterns the code uses.  Both read the local calendar fields of
    the date and throw a [RangeError] on an invalid date. *)

Module DateFns.
Local Open Scope Z_scope.

Fixpoint uintUnits (u : Decimal.uint) : jsstring :=
  match u with
  | Decimal.Nil => []
  | Decimal.D0 u' => 48%N :: uintUnits u'
  | Decimal.D1 u' => 49%N :: uintUnits u'
  | Decimal.D2 u' => 50%N :: uintUnits u'
  | Decimal.D3 u' => 51%N :: uintUnits u'
  | Decimal.D4 u' => 52%N :: uintUnits u'
  | Decimal.D5 u' => 53%N :: uintUnits u'
  | Decimal.D6 u' => 54%N :: uintUnits u'
  | Decimal.D7 u' => 55%N :: uintUnits u'
  | Decimal.D8 u' => 56%N :: uintUnits u'
  | Decimal.D9 u' => 57%N :: uintUnits u'
  end.

(** Decimal text of a natural number: what [toString] gives for an
    integer below 10^21 (from there on it writes an exponent). *)
Definition toDecimal (n : N) : jsstring := uintUnits (N.to_uint n).

Definition padStart (len : nat) (fill : N) (s : jsstring) : jsstring :=
  repeat fill (len - length s) ++ s.

Definition addLeadingZeros (n : Z) (targetLength : nat) : jsstring :=
  let output := padStart targetLength 48%N (toDecimal (Z.abs_N n)) in
  if n <? 0 then minus_sign :: output else output.

(** The year of the tokens [y] and [yyyy]: year 0 of the calendar is
    1 BC and prints as 1. *)
Definition eraYear (signedYear : Z) : Z :=
  if 0 <? signedYear then signedYear else 1 - signedYear.

(** [format(date, 'yyyy-MM-dd')] *)
Definition format_yyyy_MM_dd `{Host} (date : Date) : Outcome jsstring :=
  match date with
  | InvalidDate => Threw RangeError
  | DateAt t =>
      let '(y, m, d) := localYMD t in
      Returned (addLeadingZeros (eraYear y) 4 ++ [hyphen]
                ++ addLeadingZeros m 2 ++ [hyphen] ++ addLeadingZeros d 2)
  end.

Definition monthAbbreviated (m : Z) : jsstring :=
  nth (Z.to_nat (m - 1))
      (map js ["Jan"; "Feb"; "Mar"; "Apr"; "May"; "Jun";
               "Jul"; "Aug"; "Sep"; "Oct"; "Nov"; "Dec"]%string) [].

(** [format(date, 'PP')]: the medium date of the default locale,
    [MMM d, y]. *)
Definition format_PP `{Host} (date : Date) : Outcome jsstring :=
  match date with
  | InvalidDate => Threw RangeError
  | DateAt t =>
      let '(y, m, d) := localYMD t in
      Returned (monthAbbreviated m ++ js " " ++ addLeadingZeros d 1
                ++ js ", " ++ addLeadingZeros (eraYear y) 1)
  end.

End DateFns.

(** ** Two hosts to run examples on: UTC, and five hours west of it. *)

Definition host_at (offset : Z) : Host :=
  {| LocalTZA := fun _ => offset;
     toUpperCase_unicode := fun s => s;
     Date_parse_other := fun _ => InvalidDate |}.

Definition utc_host : Host := host_at 0.
Definition new_york_host : Host := host_at (-18000000).

(** ** [src/components/tasks/types.ts] *)

Inductive TaskPriority : Type := high | medium | low.
Inductive TaskStatus : Type := pending | in_progress | complete.

Module AssignedTo.
Record t : Type := {
  id : jsstring;
  name : jsstring;
  initials : jsstring
}.
End AssignedTo.

(** The [Task] interface, with the two notification properties that
    [scheduleTaskReminder] reads from the object. *)
Module Task.
Record t : Type := {
  id : jsstring;
  title : jsstring;
  description : jsstring;
  priority : TaskPriority;
  status : TaskStatus;
  dueDate : option Date;
  dueTime : option jsstring;
  reminderSet : option bool;
  reminderTime : option jsstring;
  progress : option Number;
  assignedTo : option AssignedTo.t;
  tags : option (list jsstring);
  teamId : option jsstring;
  emailNotification : option bool;
  notificationEmail : option jsstring
}.
End Task.

(** ** [src/components/tasks/TaskEditDialog.tsx] *)

(** The values handed over by the form ([data: any]). *)
Module Form.
Record data : Type := {
  title : jsstring;
  description : jsstring;
  priority : TaskPriority;
  status : TaskStatus;
  dueDate : option Date;
  dueTime : field jsstring;
  reminderEnabled : bool;
  reminderTime : field jsstring;
  progress : jsstring;
  tags : field jsstring;
  assignedTo : field jsstring;
  teamId : field jsstring
}.
End Form.

(** An entry of the [teamMembers] property of the dialog. *)
Module Member.
Record t : Type := {
  id : jsstring;
  name : jsstring
}.
End Member.

(** The object passed to [onSubmit].  [None] is [undefined] for
    [assignedTo] and [teamId] (for [id], no property at all), and [null]
    for [tags]. *)
Module Payload.
Record t : Type := {
  id : option jsstring;
  title : jsstring;
  description : jsstring;
  priority : TaskPriority;
  status : TaskStatus;
  dueDate : option Date;
  dueTime : field jsstring;
  reminderSet : bool;
  reminderTime : field jsstring;
  progress : Number;
  tags : option (list jsstring);
  assignedTo : option AssignedTo.t;
  teamId : option jsstring
}.
End Payload.

Module Dialog.

(** [data.tags ? data.tags.split(',').map(tag => tag.trim()) : []] *)
Definition tags (raw : field jsstring) : list jsstring :=
  match raw with
  | Val s => if truthy raw then map trim (split comma s) else []
  | _ => []
  end.

(** [data.assignedTo ? teamMembers.find(m => m.id === data.assignedTo)
     : undefined] *)
Definition assignedTeamMember (teamMembers : list Member.t)
    (raw : field jsstring) : option Member.t :=
  match raw with
  | Val a =>
      if truthy raw then find (fun m => str_eqb (Member.id m) a) teamMembers
      else None
  | _ => None
  end.

(** [data.teamId || undefined] *)
Definition teamIdOf (raw : field jsstring) : option jsstring :=
  match raw with
  | Val s => if truthy raw then Some s else None
  | _ => None
  end.

(** The argument of [onSubmit] in [handleSubmit]. *)
Definition submission `{Host} (task : option Task.t)
    (teamMembers : list Member.t) (data : Form.data) : Payload.t :=
  let tags := tags (Form.tags data) in
  let assignedTeamMember :=
    assignedTeamMember teamMembers (Form.assignedTo data) in
  {| Payload.id :=
       match task with
       | Some t => if truthy (Val (Task.id t)) then Some (Task.id t) else None
       | None => None
       end;
     Payload.title := Form.title data;
     Payload.description := Form.description data;
     Payload.priority := Form.priority data;
     Payload.status := Form.status data;
     Payload.dueDate := Form.dueDate data;
     Payload.dueTime := Form.dueTime data;
     Payload.reminderSet := Form.reminderEnabled data;
     Payload.reminderTime :=
       if Form.reminderEnabled data then Form.reminderTime data else Null;
     Payload.progress := parseInt10 (Form.progress data);
     Payload.tags := if (0 <? length tags)%nat then Some tags else None;
     Payload.assignedTo :=
       match assignedTeamMember with
       | Some m =>
           Some {| AssignedTo.id := Member.id m;
                   AssignedTo.name := Member.name m;
                   AssignedTo.initials :=
                     toUpperCase (substring 0 2 (Member.name m)) |}
       | None => None
       end;
     Payload.teamId := teamIdOf (Form.teamId data) |}.

(** The two callbacks of the dialog, as [handleSubmit] calls them. *)
Inductive Callback : Type :=
| onSubmit (p : Payload.t)
| onOpenChange (open : bool).

Definition handleSubmit `{Host} (task : option Task.t)
    (teamMembers : list Member.t) (data : Form.data) : list Callback :=
  [onSubmit (submission task teamMembers data); onOpenChange false].

End Dialog.

(** ** The Supabase client, as [src/lib/api.ts] uses it *)

Module Team.
Record t : Type := {
  id : jsstring;
  name : jsstring;
  description : option jsstring;
  created_by : jsstring;
  created_at : jsstring
}.
End Team.

Module CreateTeamParams.
Record t : Type := {
  name : jsstring;
  description : option jsstring;
  created_by : jsstring
}.
End CreateTeamParams.

Inductive Role : Type := admin | member.

(** A row of [.from('team_members').select('team_id')]. *)
Module Membership.
Record t : Type := { team_id : jsstring }.
End Membership.

(** The object given to [.from('teams').insert(...)]. *)
Module NewTeam.
Record t : Type := {
  name : jsstring;
  description : option jsstring;
  created_by : jsstring
}.
End NewTeam.

(** The object given to [.from('team_members').insert(...)]. *)
Module NewTeamMember.
Record t : Type := {
  team_id : jsstring;
  user_id : jsstring;
  role : Role
}.
End NewTeamMember.

(** The body of a function invocation is JSON text; it is represented by
    the object it denotes, property by property, in order. *)
Inductive JsonValue : Type :=
| JNull
| JString (s : jsstring).

Definition JsonObject : Type := list (string * JsonValue).

(** [JSON.stringify] of an object literal: a property whose value is
    [undefined] is left out. *)
Fixpoint JSON_stringify (props : list (string * option JsonValue))
  : JsonObject :=
  match props with
  | [] => []
  | (k, Some v) :: rest => (k, v) :: JSON_stringify rest
  | (_, None) :: rest => JSON_stringify rest
  end.

(** The requests the code sends. *)
Inductive Request : Type :=
| SelectMemberships (user_id : jsstring)
    (* from('team_members').select('team_id').eq('user_id', user_id) *)
| SelectTeams (ids : list jsstring)
    (* from('teams').select('*').in('id', ids) *)
| InsertTeam (row : NewTeam.t)
    (* from('teams').insert(row).select().single() *)
| InsertTeamMember (row : NewTeamMember.t)
    (* from('team_members').insert(row) *)
| FunctionsInvoke (functionName : jsstring) (body : JsonObject).
    (* functions.invoke(functionName, { body }) *)

(** The type of [data] in the reply to a request. *)
Definition Answer (r : Request) : Type :=
  match r with
  | SelectMemberships _ => list Membership.t
  | SelectTeams _ => list Team.t
  | InsertTeam _ => Team.t
  | InsertTeamMember _ => unit
  | FunctionsInvoke _ _ => unit
  end.

(** What awaiting a request gives: the pair [{ data, error }], each
    possibly [null], or a rejection. *)
Inductive Reply (A : Type) : Type :=
| Resolved (data : option A) (error : option Error)
| Rejected (e : Error).
Arguments Rejected {A} e.

(** A backend answers requests and changes its own state [W] while doing
    so.  Nothing more is assumed of it. *)
Class Backend (W : Type) : Type := {
  serve : forall r : Request, W -> Reply (Answer r) * W
}.

Inductive LogLine : Type :=
| console_error (label : string) (e : Error)
| console_log (text : string).

(** The state a call runs in: the backend, the requests sent so far
    (oldest first) and the lines written to the console. *)
Record Session (W : Type) : Type := {
  world : W;
  sent : list Request;
  console : list LogLine
}.

(** ** A state and exception monad for the asynchronous functions *)

Definition M (W A : Type) : Type := Session W -> Outcome A * Session W.

Definition ret {W A} (a : A) : M W A := fun s => (Returned a, s).

Definition throw {W A} (e : Error) : M W A := fun s => (Threw e, s).

Definition bind {W A B} (c : M W A) (k : A -> M W B) : M W B :=
  fun s =>
    match c s with
    | (Returned a, s') => k a s'
    | (Threw e, s') => (Threw e, s')
    end.

(** [try { body } catch (error) { handler }] *)
Definition tryCatch {W A} (body : M W A) (handler : Error -> M W A)
  : M W A :=
  fun s =>
    match body s with
    | (Returned a, s') => (Returned a, s')
    | (Threw e, s') => handler e s'
    end.

Definition lift {W A} (o : Outcome A) : M W A := fun s => (o, s).

Definition write {W} (l : LogLine) : M W unit :=
  fun s =>
    (Returned tt,
     {| world := world s; sent := sent s; console := console s ++ [l] |}).

(** [await] of a request: the request is sent, the backend answers, and a
    rejection is thrown at the caller. *)
Definition await {W} `{Backend W} (r : Request)
  : M W (option (Answer r) * option Error) :=
  fun s =>
    let (reply, w) := serve r (world s) in
    let s' := {| world := w; sent := sent s ++ [r]; console := console s |} in
    match reply with
    | Resolved data error => (Returned (data, error), s')
    | Rejected e => (Threw e, s')
    end.

Declare Scope api_scope.
Delimit Scope api_scope with api.
Notation "x <- c ;; k" := (bind c (fun x => k))
  (at level 61, c at next level, right associativity) : api_scope.
Notation "' p <- c ;; k" := (bind c (fun x => match x with p => k end))
  (at level 61, p pattern, c at next level, right associativity) : api_scope.
Notation "c ;;; k" := (bind c (fun _ => k))
  (at level 61, right associativity) : api_scope.

(** ** [src/lib/api.ts] *)

Module Api.
Local Open Scope api_scope.

Definition formatDateForSupabase `{Host} (date : Date) : Outcome jsstring :=
  DateFns.format_yyyy_MM_dd date.

(** [dateString ? new Date(dateString) : null] *)
Definition parseDateFromSupabase `{Host} (dateString : option jsstring)
  : option Date :=
  match dateString with
  | Some (c :: r) => Some (newDate (c :: r))
  | _ => None
  end.

Section WithBackend.
Context {W : Type} {B : Backend W} {H : Host}.

Definition getTeams (userId : jsstring) : M W (list Team.t) :=
  tryCatch
    ('(membershipData, membershipError) <- await (SelectMemberships userId) ;;
     match membershipError with
     | Some e => throw e
     | None =>
         match membershipData with
         | None | Some [] => ret []
         | Some rows =>
             let teamIds := map Membership.team_id rows in
             '(teamsData, teamsError) <- await (SelectTeams teamIds) ;;
             match teamsError with
             | Some e => throw e
             | None =>
                 ret (match teamsData with Some ts => ts | None => [] end)
             end
         end
     end)
    (fun error =>
       write (console_error "Error fetching teams:" error) ;;; ret []).

Definition createTeam (params : CreateTeamParams.t) : M W Team.t :=
  tryCatch
    ('(data, error) <-
        await (InsertTeam
                 {| NewTeam.name := CreateTeamParams.name params;
                    NewTeam.description :=
                      match CreateTeamParams.description params with
                      | Some (c :: r) => Some (c :: r)
                      | _ => None
                      end;
                    NewTeam.created_by :=
                      CreateTeamParams.created_by params |}) ;;
     match error with
     | Some e => throw e
     | None =>
         match data with
         | None => throw TypeError (* [data.id] of [null] *)
         | Some team =>
             '(_, memberError) <-
                await (InsertTeamMember
                         {| NewTeamMember.team_id := Team.id team;
                            NewTeamMember.user_id :=
                              CreateTeamParams.created_by params;
                            NewTeamMember.role := admin |}) ;;
             match memberError with
             | Some e => throw e
             | None => ret team
             end
         end
     end)
    (fun error =>
       write (console_error "Error creating team:" error) ;;; throw error).

(** ToBoolean on an optional flag and on an optional text. *)
Definition truthyFlag (b : option bool) : bool :=
  match b with Some true => true | _ => false end.

Definition truthyText (s : option jsstring) : bool :=
  match s with Some (_ :: _) => true | _ => false end.

Definition scheduleTaskReminder (task : Task.t) : M W unit :=
  tryCatch
    (if negb (truthyFlag (Task.reminderSet task))
        || negb (truthyFlag (Task.emailNotification task))
        || negb (truthyText (Task.notificationEmail task))
     then ret tt
     else
       dueDate <- match Task.dueDate task with
                  | Some d => s <- lift (DateFns.format_PP d) ;;
                              ret (JString s)
                  | None => ret JNull
                  end ;;
       '(_, error) <-
          await (FunctionsInvoke (js "send-reminder")
                   (JSON_stringify
                      [("taskId", Some (JString (Task.id task)));
                       ("email",
                        option_map JString (Task.notificationEmail task));
                       ("taskTitle", Some (JString (Task.title task)));
                       ("dueDate", Some dueDate);
                       ("dueTime",
                        option_map JString (Task.dueTime task))]%string)) ;;
       match error with
       | Some e => throw e
       | None => write (console_log "Reminder scheduled successfully")
       end)
    (fun error =>
       write (console_error "Error scheduling reminder:" error) ;;;
       throw error).

End WithBackend.
End Api.

(** ** A backend to run the functions on

    An in-memory store with the two tables the code touches.  Each request
    first consumes one entry of [faults], which says whether the request
    goes through, is answered with an error, or is rejected; an exhausted
    list lets every request through.  Identifiers and timestamps of new
    rows are the store's own. *)

Inductive Fault : Type :=
| Pass
| Report (e : Error)
| Reject (e : Error).

Module TeamMemberRow.
Record t : Type := {
  id : jsstring;
  team_id : jsstring;
  user_id : jsstring;
  role : Role;
  joined_at : jsstring
}.
End TeamMemberRow.

Module Store.

Record t : Type := {
  teams : list Team.t;
  team_members : list TeamMemberRow.t;
  serial : nat;
  uuid : nat -> jsstring;
  now : jsstring;
  faults : list Fault
}.

Definition with_faults (fs : list Fault) (s : t) : t :=
  {| teams := teams s; team_members := team_members s; serial := serial s;
     uuid := uuid s; now := now s; faults := fs |}.

Definition add_team (row : Team.t) (s : t) : t :=
  {| teams := teams s ++ [row]; team_members := team_members s;
     serial := S (serial s); uuid := uuid s; now := now s;
     faults := faults s |}.

Definition add_team_member (row : TeamMemberRow.t) (s : t) : t :=
  {| teams := teams s; team_members := team_members s ++ [row];
     serial := S (serial s); uuid := uuid s; now := now s;
     faults := faults s |}.

(** The members of a team, as the table has them. *)
Definition members_of (team_id : jsstring) (s : t) : list TeamMemberRow.t :=
  filter (fun r => str_eqb (TeamMemberRow.team_id r) team_id)
         (team_members s).

(** A request that goes through. *)
Definition perform (r : Request) : t -> Reply (Answer r) * t :=
  match r as r0 return t -> Reply (Answer r0) * t with
  | SelectMemberships user_id => fun s =>
      (Resolved
         (Some (map (fun r => {| Membership.team_id :=
                                   TeamMemberRow.team_id r |})
                    (filter (fun r => str_eqb (TeamMemberRow.user_id r)
                                              user_id)
                            (team_members s))))
         None, s)
  | SelectTeams ids => fun s =>
      (Resolved
         (Some (filter (fun tm => existsb (str_eqb (Team.id tm)) ids)
                       (teams s)))
         None, s)
  | InsertTeam row => fun s =>
      let team := {| Team.id := uuid s (serial s);
                     Team.name := NewTeam.name row;
                     Team.description := NewTeam.description row;
                     Team.created_by := NewTeam.created_by row;
                     Team.created_at := now s |} in
      (Resolved (Some team) None, add_team team s)
  | InsertTeamMember row => fun s =>
      (Resolved None None,
       add_team_member
         {| TeamMemberRow.id := uuid s (serial s);
            TeamMemberRow.team_id := NewTeamMember.team_id row;
            TeamMemberRow.user_id := NewTeamMember.user_id row;
            TeamMemberRow.role := NewTeamMember.role row;
            TeamMemberRow.joined_at := now s |} s)
  | FunctionsInvoke _ _ => fun s => (Resolved (Some tt) None, s)
  end.

Definition answer (r : Request) (s : t) : Reply (Answer r) * t :=
  match faults s with
  | [] => perform r s
  | Pass :: fs => perform r (with_faults fs s)
  | Report e :: fs => (Resolved None (Some e), with_faults fs s)
  | Reject e :: fs => (Rejected e, with_faults fs s)
  end.

#[global] Instance backend : Backend t := {| serve := answer |}.

End Store.

(** A fresh session on a backend. *)
Definition start {W} (w : W) : Session W :=
  {| world := w; sent := []; console := [] |}.

(** ** More of the client: member profiles, the dialog's team list and
    the authentication provider *)

(** A row of [profiles]. *)
Module ProfileRow.
Record t : Type := {
  id : jsstring;
  first_name : option jsstring;
  last_name : option jsstring;
  avatar_url : option jsstring
}.
End ProfileRow.

(** The [profile] of a [TeamMember]. *)
Module Profile.
Record t : Type := {
  first_name : option jsstring;
  last_name : option jsstring;
  avatar_url : option jsstring
}.
End Profile.

(** The [TeamMember] interface of [src/lib/api.ts]. *)
Module TeamMember.
Record t : Type := {
  id : jsstring;
  team_id : jsstring;
  user_id : jsstring;
  role : Role;
  joined_at : jsstring;
  profile : Profile.t
}.
End TeamMember.

(** The [TeamOption] interface of the dialog. *)
Module TeamOption.
Record t : Type := {
  id : jsstring;
  name : jsstring
}.
End TeamOption.

Module User.
Record t : Type := { id : jsstring }.
End User.

Module AuthSession.
Record t : Type := {
  user : User.t;
  access_token : jsstring
}.
End AuthSession.

(** What [signIn] returns: [{ data: { user, session }, error }]. *)
Module AuthResponse.
Record t : Type := {
  data : option (option User.t * option AuthSession.t);
  error : option Error
}.
End AuthResponse.

(** The table reads these functions send. *)
Inductive Query : Type :=
| TeamMembersOf (team_id : jsstring)
    (* from('team_members')
         .select('id, team_id, user_id, role, joined_at')
         .eq('team_id', team_id) *)
| ProfilesIn (ids : list jsstring)
    (* from('profiles').select('id, first_name, last_name, avatar_url')
         .in('id', ids) *)
| MembershipsOf (user_id : option jsstring)
    (* from('team_members').select('team_id').eq('user_id', user?.id) *)
| TeamOptionsIn (ids : list jsstring).
    (* from('teams').select('id, name').in('id', ids) *)

Definition Row (q : Query) : Type :=
  match q with
  | TeamMembersOf _ => TeamMemberRow.t
  | ProfilesIn _ => ProfileRow.t
  | MembershipsOf _ => Membership.t
  | TeamOptionsIn _ => TeamOption.t
  end.

(** The calls to [supabase.auth]. *)
Inductive AuthCall : Type :=
| GetSession
| SignInWithPassword (email password : jsstring)
| SignOut.

Definition AuthData (c : AuthCall) : Type :=
  match c with
  | GetSession => option AuthSession.t          (* data.session *)
  | SignInWithPassword _ _ => (option User.t * option AuthSession.t)%type
  | SignOut => unit
  end.

(** The reply to a call to [supabase.auth]: [{ data, error }], the error
    being known by its message, or a rejection. *)
Inductive AuthReply (A : Type) : Type :=
| AuthResolved (data : option A) (error : option jsstring)
| AuthRejected (e : Error).
Arguments AuthRejected {A} e.

(** A service answers reads and authentication calls, changing its own
    state while doing so.  Nothing more is assumed of it. *)
Class Service (W : Type) : Type := {
  read : forall q : Query, W -> Reply (list (Row q)) * W;
  auth : forall c : AuthCall, W -> AuthReply (AuthData c) * W
}.

(** What is shown on the console after a label. *)
Inductive Shown : Type :=
| shown_text (s : jsstring)
| shown_flag (b : bool)
| shown_session (s : option AuthSession.t)
| shown_data (d : option (option AuthSession.t))
| shown_error (e : Error).

Inductive Line : Type :=
| line_log (label : string) (args : list Shown)
| line_error (label : string) (args : list Shown).

Inductive Toast : Type :=
| toast_error (message : jsstring)
| toast_success (message : jsstring).

(** The state these functions run in: the service, what was asked of it
    (oldest first), the console, the [teams] state of the dialog, the
    [session], [user] and [loading] state of the provider, and the toasts
    shown. *)
Record Page (W : Type) : Type := {
  service : W;
  asked : list (Query + AuthCall);
  printed : list Line;
  teams : list TeamOption.t;
  session : option AuthSession.t;
  user : option User.t;
  loading : bool;
  toasts : list Toast
}.

Definition P (W A : Type) : Type := Page W -> Outcome A * Page W.

Definition pret {W A} (a : A) : P W A := fun s => (Returned a, s).

Definition pthrow {W A} (e : Error) : P W A := fun s => (Threw e, s).

Definition pbind {W A B} (c : P W A) (k : A -> P W B) : P W B :=
  fun s =>
    match c s with
    | (Returned a, s') => k a s'
    | (Threw e, s') => (Threw e, s')
    end.

(** [try { body } catch (error) { handler }] *)
Definition pcatch {W A} (body : P W A) (handler : Error -> P W A) : P W A :=
  fun s =>
    match body s with
    | (Returned a, s') => (Returned a, s')
    | (Threw e, s') => handler e s'
    end.

(** [... finally { cleanup }]: the cleanup runs whatever the outcome, and
    the outcome stays unless the cleanup throws. *)
Definition pfinally {W A} (body : P W A) (cleanup : P W unit) : P W A :=
  fun s =>
    match body s with
    | (o, s') =>
        match cleanup s' with
        | (Returned _, s'') => (o, s'')
        | (Threw e, s'') => (Threw e, s'')
        end
    end.

Definition print {W} (l : Line) : P W unit :=
  fun s =>
    (Returned tt,
     {| service := service s; asked := asked s;
        printed := printed s ++ [l]; teams := teams s;
        session := session s; user := user s; loading := loading s;
        toasts := toasts s |}).

Definition toast {W} (t : Toast) : P W unit :=
  fun s =>
    (Returned tt,
     {| service := service s; asked := asked s; printed := printed s;
        teams := teams s; session := session s; user := user s;
        loading := loading s; toasts := toasts s ++ [t] |}).

Definition setTeams {W} (ts : list TeamOption.t) : P W unit :=
  fun s =>
    (Returned tt,
     {| service := service s; asked := asked s; printed := printed s;
        teams := ts; session := session s; user := user s;
        loading := loading s; toasts := toasts s |}).

Definition setSession {W} (x : option AuthSession.t) : P W unit :=
  fun s =>
    (Returned tt,
     {| service := service s; asked := asked s; printed := printed s;
        teams := teams s; session := x; user := user s;
        loading := loading s; toasts := toasts s |}).

Definition setUser {W} (x : option User.t) : P W unit :=
  fun s =>
    (Returned tt,
     {| service := service s; asked := asked s; printed := printed s;
        teams := teams s; session := session s; user := x;
        loading := loading s; toasts := toasts s |}).

Definition setLoading {W} (b : bool) : P W unit :=
  fun s =>
    (Returned tt,
     {| service := service s; asked := asked s; printed := printed s;
        teams := teams s; session := session s; user := user s;
        loading := b; toasts := toasts s |}).

(** The page after one more question and the service's new state. *)
Definition answered {W} (q : Query + AuthCall) (w : W) (s : Page W)
  : Page W :=
  {| service := w; asked := asked s ++ [q]; printed := printed s;
     teams := teams s; session := session s; user := user s;
     loading := loading s; toasts := toasts s |}.

(** [await] of a read. *)
Definition fetch {W} `{Service W} (q : Query)
  : P W (option (list (Row q)) * option Error) :=
  fun s =>
    let (reply, w) := read q (service s) in
    match reply with
    | Resolved data error => (Returned (data, error), answered (inl q) w s)
    | Rejected e => (Threw e, answered (inl q) w s)
    end.

(** [await] of a call to [supabase.auth]. *)
Definition call {W} `{Service W} (c : AuthCall)
  : P W (option (AuthData c) * option jsstring) :=
  fun s =>
    let (reply, w) := auth c (service s) in
    match reply with
    | AuthResolved data error =>
        (Returned (data, error), answered (inr c) w s)
    | AuthRejected e => (Threw e, answered (inr c) w s)
    end.

Declare Scope page_scope.
Delimit Scope page_scope with page.
Notation "x <- c ;; k" := (pbind c (fun x => k))
  (at level 61, c at next level, right associativity) : page_scope.
Notation "' p <- c ;; k" := (pbind c (fun x => match x with p => k end))
  (at level 61, p pattern, c at next level, right associativity)
  : page_scope.
Notation "c ;;; k" := (pbind c (fun _ => k))
  (at level 61, right associativity) : page_scope.

(** [value || null] on a nullable text. *)
Definition orNull (x : option jsstring) : option jsstring :=
  match x with
  | Some (c :: r) => Some (c :: r)
  | _ => None
  end.

(** ** [getTeamMembers] of [src/lib/api.ts] *)

Module Members.
Local Open Scope page_scope.
Section WithService.
Context {W : Type} {S : Service W}.

(** The callback of the final [map]: a membership row with the profile
    found for it. *)
Definition withProfile (profilesData : option (list ProfileRow.t))
    (member : TeamMemberRow.t) : TeamMember.t :=
  let profile :=
    match profilesData with
    | Some ps =>
        find (fun p => str_eqb (ProfileRow.id p)
                               (TeamMemberRow.user_id member)) ps
    | None => None
    end in
  {| TeamMember.id := TeamMemberRow.id member;
     TeamMember.team_id := TeamMemberRow.team_id member;
     TeamMember.user_id := TeamMemberRow.user_id member;
     TeamMember.role := TeamMemberRow.role member;
     TeamMember.joined_at := TeamMemberRow.joined_at member;
     TeamMember.profile :=
       {| Profile.first_name :=
            orNull (match profile with
                    | Some p => ProfileRow.first_name p
                    | None => None
                    end);
          Profile.last_name :=
            orNull (match profile with
                    | Some p => ProfileRow.last_name p
                    | None => None
                    end);
          Profile.avatar_url :=
            orNull (match profile with
                    | Some p => ProfileRow.avatar_url p
                    | None => None
                    end) |} |}.

Definition getTeamMembers (teamId : jsstring) : P W (list TeamMember.t) :=
  pcatch
    ('(memberData, memberError) <- fetch (TeamMembersOf teamId) ;;
     match memberError with
     | Some e => pthrow e
     | None =>
         match memberData with
         | None | Some [] => pret []
         | Some rows =>
             let userIds := map TeamMemberRow.user_id rows in
             '(profilesData, profilesError) <- fetch (ProfilesIn userIds) ;;
             match profilesError with
             | Some e => pthrow e
             | None => pret (map (withProfile profilesData) rows)
             end
         end
     end)
    (fun error =>
       print (line_error "Error fetching team members:" [shown_error error])
       ;;; pret []).

End WithService.
End Members.

(** ** The rest of [TaskEditDialog.tsx] *)

Module DialogEffects.
Local Open Scope page_scope.
Section WithService.
Context {W : Type} {S : Service W}.

Definition fetchUserTeams (user : option User.t) : P W unit :=
  pcatch
    ('(membershipData, membershipError) <-
        fetch (MembershipsOf (option_map User.id user)) ;;
     match membershipError with
     | Some e => pthrow e
     | None =>
         match membershipData with
         | Some (r :: rs) =>
             let teamIds := map Membership.team_id (r :: rs) in
             '(teamsData, teamsError) <- fetch (TeamOptionsIn teamIds) ;;
             match teamsError with
             | Some e => pthrow e
             | None =>
                 setTeams (match teamsData with
                           | Some ts => ts
                           | None => []
                           end)
             end
         | _ => setTeams []
         end
     end)
    (fun error =>
       print (line_error "Error fetching teams:" [shown_error error])).

(** The effect of the dialog: [if (open && user) fetchUserTeams()]. *)
Definition whenOpened (open : bool) (user : option User.t) : P W unit :=
  match open, user with
  | true, Some _ => fetchUserTeams user
  | _, _ => pret tt
  end.

End WithService.

(** [task?.id ? 'Edit Task' : 'Add New Task'] *)
Definition dialogTitle (task : option Task.t) : jsstring :=
  match task with
  | Some t => if truthy (Val (Task.id t)) then js "Edit Task"
              else js "Add New Task"
  | None => js "Add New Task"
  end.

End DialogEffects.

(** ** The authentication provider *)

Module Auth.
Local Open Scope page_scope.
Section WithService.
Context {W : Type} {S : Service W}.

(** [error.message || fallback] *)
Definition messageOr (message fallback : jsstring) : jsstring :=
  match message with
  | [] => fallback
  | _ => message
  end.

Definition getInitialSession : P W unit :=
  pfinally
    (pcatch
       (print (line_log "Fetching initial session..." []) ;;;
        '(data, _) <- call GetSession ;;
        print (line_log "Initial session data:" [shown_data data]) ;;;
        match data with
        | None => pthrow TypeError (* [data.session] of [null] *)
        | Some s =>
            setSession s ;;;
            setUser (option_map AuthSession.user s)
        end)
       (fun error =>
          print (line_error "Error getting initial session:"
                            [shown_error error])))
    (setLoading false).

(** The callback given to [onAuthStateChange]. *)
Definition authStateChanged (event : jsstring)
    (s : option AuthSession.t) : P W unit :=
  print (line_log "Auth state changed:"
                  [shown_text event;
                   shown_flag (match s with Some _ => true | None => false
                               end)]) ;;;
  setSession s ;;;
  setUser (option_map AuthSession.user s) ;;;
  setLoading false.

Definition signIn (email password : jsstring) : P W AuthResponse.t :=
  pfinally
    (pcatch
       (setLoading true ;;;
        print (line_log "Attempting to sign in with:" [shown_text email]) ;;;
        '(data, error) <- call (SignInWithPassword email password) ;;
        let response :=
          {| AuthResponse.data := data;
             AuthResponse.error := option_map RemoteError error |} in
        match error with
        | Some message =>
            print (line_error "Login error:"
                              [shown_error (RemoteError message)]) ;;;
            toast (toast_error (messageOr message (js "Failed to sign in")))
            ;;; pret response
        | None =>
            match data with
            | None => pthrow TypeError (* [response.data.session] *)
            | Some (_, s) =>
                print (line_log "Login successful, session:"
                                [shown_session s]) ;;;
                toast (toast_success (js "Successfully logged in!")) ;;;
                pret response
            end
        end)
       (fun error =>
          print (line_error "Login error:" [shown_error error]) ;;;
          pret {| AuthResponse.data := Some (None, None);
                  AuthResponse.error := Some error |}))
    (setLoading false).

Definition signOut : P W unit :=
  pfinally
    (pcatch
       (setLoading true ;;;
        print (line_log "Signing out..." []) ;;;
        '(_, error) <- call SignOut ;;
        match error with
        | Some message =>
            print (line_error "Logout error:"
                              [shown_error (RemoteError message)]) ;;;
            toast (toast_error (messageOr message (js "Failed to sign out")))
            ;;; pthrow (RemoteError message)
        | None =>
            print (line_log "Sign out successful" []) ;;;
            toast (toast_success (js "Successfully logged out"))
        end)
       (fun error =>
          print (line_error "Error signing out:" [shown_error error]) ;;;
          pthrow error))
    (setLoading false).

(** What can happen to the provider, and the run of a sequence of such
    events from a state. *)
Inductive Event : Type :=
| Mounted                                   (* getInitialSession() *)
| Changed (event : jsstring) (s : option AuthSession.t)
| SignedIn (email password : jsstring)
| SignedOut.

Definition step (e : Event) (s : Page W) : Page W :=
  match e with
  | Mounted => snd (getInitialSession s)
  | Changed event x => snd (authStateChanged event x s)
  | SignedIn email password => snd (signIn email password s)
  | SignedOut => snd (signOut s)
  end.

Definition run (events : list Event) (s : Page W) : Page W :=
  fold_left (fun s e => step e s) events s.

End WithService.
End Auth.

(** The state of a freshly mounted page: no session, no user, loading. *)
Definition fresh_page {W} (w : W) : Page W :=
  {| service := w; asked := []; printed := []; teams := [];
     session := None; user := None; loading := true; toasts := [] |}.

(** ** A service to run these functions on

    An in-memory service with the tables read here and one account.  As
    for the store, each request first consumes one entry of [faults]. *)

Module Cloud.

Record t : Type := {
  members : list TeamMemberRow.t;
  profiles : list ProfileRow.t;
  options : list TeamOption.t;
  account : option (jsstring * jsstring * AuthSession.t);
  current : option AuthSession.t;
  faults : list Fault
}.

Definition with_faults (fs : list Fault) (c : t) : t :=
  {| members := members c; profiles := profiles c; options := options c;
     account := account c; current := current c; faults := fs |}.

Definition with_current (x : option AuthSession.t) (c : t) : t :=
  {| members := members c; profiles := profiles c; options := options c;
     account := account c; current := x; faults := faults c |}.

Definition rowsOf (q : Query) (c : t) : list (Row q) :=
  match q as q0 return list (Row q0) with
  | TeamMembersOf team_id =>
      filter (fun r => str_eqb (TeamMemberRow.team_id r) team_id) (members c)
  | ProfilesIn ids =>
      filter (fun p => existsb (str_eqb (ProfileRow.id p)) ids) (profiles c)
  | MembershipsOf (Some user_id) =>
      map (fun r => {| Membership.team_id := TeamMemberRow.team_id r |})
          (filter (fun r => str_eqb (TeamMemberRow.user_id r) user_id)
                  (members c))
  | MembershipsOf None => []
  | TeamOptionsIn ids =>
      filter (fun o => existsb (str_eqb (TeamOption.id o)) ids) (options c)
  end.

Definition readFrom (q : Query) (c : t) : Reply (list (Row q)) * t :=
  match faults c with
  | [] => (Resolved (Some (rowsOf q c)) None, c)
  | Pass :: fs => (Resolved (Some (rowsOf q c)) None, with_faults fs c)
  | Report e :: fs => (Resolved None (Some e), with_faults fs c)
  | Reject e :: fs => (Rejected e, with_faults fs c)
  end.

Definition messageOf (e : Error) : jsstring :=
  match e with
  | RemoteError m => m
  | _ => []
  end.

Definition perform (a : AuthCall) : t -> AuthReply (AuthData a) * t :=
  match a as a0 return t -> AuthReply (AuthData a0) * t with
  | GetSession => fun c => (AuthResolved (Some (current c)) None, c)
  | SignInWithPassword email password => fun c =>
      match account c with
      | Some (e, p, s) =>
          if str_eqb e email && str_eqb p password
          then (AuthResolved (Some (Some (AuthSession.user s), Some s)) None,
                with_current (Some s) c)
          else (AuthResolved (Some (None, None))
                             (Some (js "Invalid login credentials")), c)
      | None =>
          (AuthResolved (Some (None, None))
                        (Some (js "Invalid login credentials")), c)
      end
  | SignOut => fun c => (AuthResolved None None, with_current None c)
  end.

Definition authOn (a : AuthCall) (c : t) : AuthReply (AuthData a) * t :=
  match faults c with
  | [] => perform a c
  | Pass :: fs => perform a (with_faults fs c)
  | Report e :: fs => (AuthResolved None (Some (messageOf e)), with_faults fs c)
  | Reject e :: fs => (AuthRejected e, with_faults fs c)
  end.

#[global] Instance service : Service t := {| read := readFrom; auth := authOn |}.

End Cloud.

(** A team of two members, one of them without profile row, the other
    with an empty last name; one account. *)
Definition sample_cloud (faults : list Fault) : Cloud.t :=
  {| Cloud.members :=
       [ {| TeamMemberRow.id := js "m1"; TeamMemberRow.team_id := js "team-0";
            TeamMemberRow.user_id := js "u1"; TeamMemberRow.role := admin;
            TeamMemberRow.joined_at := js "2024-03-15" |};
         {| TeamMemberRow.id := js "m2"; TeamMemberRow.team_id := js "team-0";
            TeamMemberRow.user_id := js "u2"; TeamMemberRow.role := member;
            TeamMemberRow.joined_at := js "2024-03-16" |} ];
     Cloud.profiles :=
       [ {| ProfileRow.id := js "u1"; ProfileRow.first_name := Some (js "Al");
            ProfileRow.last_name := Some (js "");
            ProfileRow.avatar_url := None |} ];
     Cloud.options :=
       [ {| TeamOption.id := js "team-0"; TeamOption.name := js "Ops" |} ];
     Cloud.account :=
       Some (js "al@example.org", js "secret",
             {| AuthSession.user := {| User.id := js "u1" |};
                AuthSession.access_token := js "token" |});
     Cloud.current := None;
     Cloud.faults := faults |}.

(** A page after one more line on the console. *)
Definition noted {W} (l : Line) (s : Page W) : Page W :=
  {| service := service s; asked := asked s; printed := printed s ++ [l];
     teams := teams s; session := session s; user := user s;
     loading := loading s; toasts := toasts s |}.

(** An entry of the result carries the columns of its membership row. *)
Definition sameMember (row : TeamMemberRow.t) (m : TeamMember.t) : Prop :=
  TeamMember.id m = TeamMemberRow.id row
  /\ TeamMember.team_id m = TeamMemberRow.team_id row
  /\ TeamMember.user_id m = TeamMemberRow.user_id row
  /\ TeamMember.role m = TeamMemberRow.role row
  /\ TeamMember.joined_at m = TeamMemberRow.joined_at row.

Definition noProfile : Profile.t :=
  {| Profile.first_name := None; Profile.last_name := None;
     Profile.avatar_url := None |}.

(** The profile of an entry, read off the profile rows: the first row of
    the member's user, with empty texts turned into [null], and nothing
    but [null] when there is no such row. *)
Definition profileFrom (profs : list ProfileRow.t) (row : TeamMemberRow.t)
    (m : TeamMember.t) : Prop :=
  ((forall p, In p profs -> ProfileRow.id p <> TeamMemberRow.user_id row) ->
   TeamMember.profile m = noProfile)
  /\ (forall before p after,
        profs = before ++ p :: after ->
        ProfileRow.id p = TeamMemberRow.user_id row ->
        (forall x, In x before ->
                   ProfileRow.id x <> TeamMemberRow.user_id row) ->
        TeamMember.profile m
        = {| Profile.first_name := orNull (ProfileRow.first_name p);
             Profile.last_name := orNull (ProfileRow.last_name p);
             Profile.avatar_url := orNull (ProfileRow.avatar_url p) |}).

(** The teams of the store in which a user has a membership row, in the
    order of the [teams] table. *)
Definition teamsOfUser (userId : jsstring) (st : Store.t) : list Team.t :=
  filter
    (fun tm =>
       existsb (str_eqb (Team.id tm))
         (map TeamMemberRow.team_id
            (filter (fun r => str_eqb (TeamMemberRow.user_id r) userId)
                    (Store.team_members st))))
    (Store.teams st).

(** The membership row the store makes for the creator of a team. *)
Definition storedCreator (st : Store.t) (params : CreateTeamParams.t)
    (team : Team.t) : TeamMemberRow.t :=
  {| TeamMemberRow.id := Store.uuid st (S (Store.serial st));
     TeamMemberRow.team_id := Team.id team;
     TeamMemberRow.user_id := CreateTeamParams.created_by params;
     TeamMemberRow.role := admin;
     TeamMemberRow.joined_at := Store.now st |}.

(** A backend that resolves every request with neither data nor
    error. *)
Definition silent_backend : Backend unit :=
  {| serve := fun r w => (Resolved None None, w) |}.

(** One cycle through storage: the date is written as text and the text
    is read back. *)
Definition reload `{Host} (date : Date) : option Date :=
  match Api.formatDateForSupabase date with
  | Returned text => Api.parseDateFromSupabase (Some text)
  | Threw _ => None
  end.

(** A number below 10000 prints on four digits as its thousands,
    hundreds, tens and units, and a number below 100 on two. *)
Definition printed4Ok (n : Z) : bool :=
  str_eqb (DateFns.addLeadingZeros n 4)
          [ (48 + Z.to_N (n / 1000))%N; (48 + Z.to_N ((n / 100) mod 10))%N;
            (48 + Z.to_N ((n / 10) mod 10))%N; (48 + Z.to_N (n mod 10))%N ].

Definition printed2Ok (n : Z) : bool :=
  str_eqb (DateFns.addLeadingZeros n 2)
          [ (48 + Z.to_N (n / 10))%N; (48 + Z.to_N (n mod 10))%N ].

(** ** Vocabulary of the statements *)

(** [pieces.join(sep)] *)
Fixpoint join (sep : N) (pieces : list jsstring) : jsstring :=
  match pieces with
  | [] => []
  | [p] => p
  | p :: rest => p ++ sep :: join sep rest
  end.

(** A text with no white space at either end. *)
Definition isTrimmed (s : jsstring) : bool :=
  match s with
  | [] => true
  | c :: _ => negb (isWhiteSpace c) && negb (isWhiteSpace (last s c))
  end.

Definition isBlank (s : jsstring) : bool := forallb isWhiteSpace s.

(** A form with nothing filled in, to build examples from. *)
Definition blank_form : Form.data :=
  {| Form.title := []; Form.description := []; Form.priority := medium;
     Form.status := pending; Form.dueDate := None;
     Form.dueTime := Undefined; Form.reminderEnabled := false;
     Form.reminderTime := Undefined; Form.progress := js "0";
     Form.tags := Undefined; Form.assignedTo := Undefined;
     Form.teamId := Undefined |}.

Definition with_tags (raw : field jsstring) (d : Form.data) : Form.data :=
  {| Form.title := Form.title d; Form.description := Form.description d;
     Form.priority := Form.priority d; Form.status := Form.status d;
     Form.dueDate := Form.dueDate d; Form.dueTime := Form.dueTime d;
     Form.reminderEnabled := Form.reminderEnabled d;
     Form.reminderTime := Form.reminderTime d;
     Form.progress := Form.progress d; Form.tags := raw;
     Form.assignedTo := Form.assignedTo d; Form.teamId := Form.teamId d |}.

Definition with_progress (raw : jsstring) (d : Form.data) : Form.data :=
  {| Form.title := Form.title d; Form.description := Form.description d;
     Form.priority := Form.priority d; Form.status := Form.status d;
     Form.dueDate := Form.dueDate d; Form.dueTime := Form.dueTime d;
     Form.reminderEnabled := Form.reminderEnabled d;
     Form.reminderTime := Form.reminderTime d;
     Form.progress := raw; Form.tags := Form.tags d;
     Form.assignedTo := Form.assignedTo d; Form.teamId := Form.teamId d |}.

Definition with_assignedTo (raw : field jsstring) (d : Form.data)
  : Form.data :=
  {| Form.title := Form.title d; Form.description := Form.description d;
     Form.priority := Form.priority d; Form.status := Form.status d;
     Form.dueDate := Form.dueDate d; Form.dueTime := Form.dueTime d;
     Form.reminderEnabled := Form.reminderEnabled d;
     Form.reminderTime := Form.reminderTime d;
     Form.progress := Form.progress d; Form.tags := Form.tags d;
     Form.assignedTo := raw; Form.teamId := Form.teamId d |}.


Definition startsWithDigit (s : jsstring) : bool :=
  match s with
  | c :: _ => isDigit c
  | [] => false
  end.

(** The number a run of decimal digits denotes. *)
Definition decimalValue (ds : jsstring) : N :=
  mathInt (map (fun c => (c - 48)%N) ds).

(** Three candidate members; the last two share an identifier. *)
Definition sample_members : list Member.t :=
  [ {| Member.id := js "u1"; Member.name := js "Al" |};
    {| Member.id := js "u2"; Member.name := js "Bo" |};
    {| Member.id := js "u2"; Member.name := js "zed" |} ].

(** A test holds of the [n] integers that start at [z]. *)
Fixpoint allFrom (f : Z -> bool) (z : Z) (n : nat) : bool :=
  match n with
  | O => true
  | S k => f z && allFrom f (z + 1) k
  end.

(** What a day of the era must satisfy: its position is a date of the
    calendar, and the day count of that date is the day itself. *)
Definition eraDayOk (doe : Z) : bool :=
  let '(yoe, mp, d) := Cal.civilOfEraDay doe in
  let m := if (mp <? 10)%Z then (mp + 3)%Z else (mp - 9)%Z in
  let y := if (m <=? 2)%Z then (yoe + 1)%Z else yoe in
  ((0 <=? yoe) && (yoe <=? 399) && (0 <=? mp) && (mp <=? 11)
   && (1 <=? d) && (d <=? Cal.daysInMonth y m)
   && (yoe * 365 + yoe / 4 - yoe / 100 + ((153 * mp + 2) / 5 + d - 1)
       =? doe))%Z.

(** A number printed on [width] digits reads back as itself. *)
Definition paddedOk (width : nat) (n : Z) : bool :=
  let text := DateFns.addLeadingZeros n width in
  (length text =? width)%nat
  && match parseDigits text with
     | Some k => (Z.of_N k =? n)%Z
     | None => false
     end.

(** The error a reply carries, if any: the [error] of the pair, or the
    reason of a rejection. *)
Definition reportedError {A} (r : Reply A) : option Error :=
  match r with
  | Resolved _ (Some e) => Some e
  | Resolved _ None => None
  | Rejected e => Some e
  end.

(** A session after one more request and answer. *)
Definition after {W} (r : Request) (w : W) (s : Session W) : Session W :=
  {| world := w; sent := sent s ++ [r]; console := console s |}.

(** A session after one more line on the console. *)
Definition logged {W} (l : LogLine) (s : Session W) : Session W :=
  {| world := world s; sent := sent s; console := console s ++ [l] |}.

(** The row [createTeam] inserts into [teams]. *)
Definition teamRowOf (params : CreateTeamParams.t) : NewTeam.t :=
  {| NewTeam.name := CreateTeamParams.name params;
     NewTeam.description :=
       match CreateTeamParams.description params with
       | Some [] | None => None
       | Some text => Some text
       end;
     NewTeam.created_by := CreateTeamParams.created_by params |}.

(** The membership of the creator of [team], as an administrator. *)
Definition creatorRowOf (params : CreateTeamParams.t) (team : Team.t)
  : NewTeamMember.t :=
  {| NewTeamMember.team_id := Team.id team;
     NewTeamMember.user_id := CreateTeamParams.created_by params;
     NewTeamMember.role := admin |}.

(** The team the store makes of an inserted row. *)
Definition storedTeam (st : Store.t) (row : NewTeam.t) : Team.t :=
  {| Team.id := Store.uuid st (Store.serial st);
     Team.name := NewTeam.name row;
     Team.description := NewTeam.description row;
     Team.created_by := NewTeam.created_by row;
     Team.created_at := Store.now st |}.

(** An empty store whose requests meet the given faults. *)
Definition empty_store (faults : list Fault) : Store.t :=
  {| Store.teams := []; Store.team_members := []; Store.serial := 0;
     Store.uuid := fun n => js "team-" ++ DateFns.toDecimal (N.of_nat n);
     Store.now := js "2024-03-15T00:00:00Z";
     Store.faults := faults |}.

Definition sample_params : CreateTeamParams.t :=
  {| CreateTeamParams.name := js "Ops";
     CreateTeamParams.description := None;
     CreateTeamParams.created_by := js "u1" |}.

(** The three conditions of a reminder: the task asks for one, e-mail
    notification is on, and there is an address. *)
Definition reminderWanted (task : Task.t) : bool :=
  Api.truthyFlag (Task.reminderSet task)
  && Api.truthyFlag (Task.emailNotification task)
  && Api.truthyText (Task.notificationEmail task).

(** The [dueDate] of the reminder: [null] for a task without due date, the
    display text of a valid due date, and none for an invalid one. *)
Definition dueDateJson `{Host} (task : Task.t) : option JsonValue :=
  match Task.dueDate task with
  | None => Some JNull
  | Some InvalidDate => None
  | Some (DateAt t) =>
      match DateFns.format_PP (DateAt t) with
      | Returned text => Some (JString text)
      | Threw _ => None
      end
  end.

(** The body of the reminder request, as the JSON text holds it. *)
Definition reminderBody (task : Task.t) (email : jsstring)
    (dueDate : JsonValue) : JsonObject :=
  [("taskId", JString (Task.id task));
   ("email", JString email);
   ("taskTitle", JString (Task.title task));
   ("dueDate", dueDate)]%string
  ++ match Task.dueTime task with
     | Some time => [("dueTime"%string, JString time)]
     | None => []
     end.

Definition sendReminder (task : Task.t) (email : jsstring)
    (dueDate : JsonValue) : Request :=
  FunctionsInvoke (js "send-reminder") (reminderBody task email dueDate).

(** A task that asks for a reminder by e-mail, with a given due date. *)
Definition sample_task (due : option Date) : Task.t :=
  {| Task.id := js "t1"; Task.title := js "Pay rent";
     Task.description := []; Task.priority := high;
     Task.status := pending; Task.dueDate := due;
     Task.dueTime := Some (js "09:00"); Task.reminderSet := Some true;
     Task.reminderTime := None; Task.progress := None;
     Task.assignedTo := None; Task.tags := None; Task.teamId := None;
     Task.emailNotification := Some true;
     Task.notificationEmail := Some (js "al@example.org") |}.

(** The days of year [y] that come before month [m]. *)
Definition daysBeforeMonth (y m : Z) : Z :=
  fold_right Z.add 0%Z
    (map (Cal.daysInMonth y) (map Z.of_nat (seq 1 (Z.to_nat (m - 1))))).

(** The store after user ["u1"] created the team ["Ops"], with the given
    faults ahead. *)
Definition sample_store (faults : list Fault) : Store.t :=
  Store.with_faults faults
    (world (snd (Api.createTeam sample_params (start (empty_store []))))).

(* ================================================================= *)
(** * Part II: properties *)
(* ================================================================= *)

(** ** Strings *)

Lemma str_eqb_eq (a b : jsstring) : str_eqb a b = true <-> a = b.
Proof.
  revert b; induction a as [|x a IH]; intros [|y b]; simpl;
    try (split; congruence).
  rewrite andb_true_iff, N.eqb_eq, IH. split.
  - intros [-> ->]; reflexivity.
  - intros E; injection E; auto.
Qed.

Lemma str_eqb_refl (a : jsstring) : str_eqb a a = true.
Proof. apply str_eqb_eq; reflexivity. Qed.

Lemma trimStart_suffix (s : jsstring) :
  exists ws, s = ws ++ trimStart s /\ isBlank ws = true.
Proof.
  induction s as [|c s [ws [E B]]]; simpl.
  - exists []; auto.
  - destruct (isWhiteSpace c) eqn:Hc.
    + exists (c :: ws); simpl. rewrite Hc, <- E. auto.
    + exists []; auto.
Qed.

Lemma trimStart_head (s : jsstring) c r :
  trimStart s = c :: r -> isWhiteSpace c = false.
Proof.
  induction s as [|x s IH]; simpl; [discriminate|].
  destruct (isWhiteSpace x) eqn:Hx; auto.
  intros E; injection E as -> _; exact Hx.
Qed.

Lemma trimStart_nil_iff (s : jsstring) :
  trimStart s = [] <-> isBlank s = true.
Proof.
  induction s as [|x s IH]; simpl; [tauto|].
  destruct (isWhiteSpace x); simpl; [exact IH|]. split; discriminate.
Qed.

Lemma trimStart_fixed (s : jsstring) c r :
  s = c :: r -> isWhiteSpace c = false -> trimStart s = s.
Proof. intros -> Hc; simpl; rewrite Hc; reflexivity. Qed.

Lemma isBlank_rev (s : jsstring) : isBlank (rev s) = isBlank s.
Proof.
  unfold isBlank. induction s as [|x s IH]; simpl; auto.
  rewrite forallb_app, IH; simpl. rewrite andb_true_r, andb_comm; reflexivity.
Qed.

(** [trim] leaves nothing exactly when the text is blank. *)
Lemma trim_nil_iff (s : jsstring) : trim s = [] <-> isBlank s = true.
Proof.
  unfold trim, trimEnd. rewrite <- trimStart_nil_iff.
  split.
  - intros E. apply (f_equal (@rev N)) in E. rewrite rev_involutive in E.
    simpl in E. apply trimStart_nil_iff in E. rewrite isBlank_rev in E.
    destruct (trimStart s) as [|c r] eqn:Hs; auto.
    apply trimStart_head in Hs. simpl in E. rewrite Hs in E. discriminate.
  - intros ->; reflexivity.
Qed.

(** The result of [trim] has no white space at either end. *)
Lemma trim_isTrimmed (s : jsstring) : isTrimmed (trim s) = true.
Proof.
  unfold trim, trimEnd.
  destruct (trimStart s) as [|c r] eqn:Hs; [reflexivity|].
  pose proof (trimStart_head _ Hs) as Hc.
  destruct (trimStart (rev (c :: r))) as [|e t] eqn:Ht; [reflexivity|].
  pose proof (trimStart_head _ Ht) as He.
  destruct (trimStart_suffix (rev (c :: r))) as [ws [E B]].
  rewrite Ht in E. apply (f_equal (@rev N)) in E.
  rewrite rev_involutive, rev_app_distr in E.
  unfold isTrimmed.
  destruct (rev (e :: t)) as [|h u] eqn:Hr.
  - reflexivity.
  - assert (Hh : h = c) by (simpl in E; injection E; auto).
    assert (Hl : last (h :: u) h = e).
    { rewrite <- Hr. simpl. apply last_last. }
    rewrite Hl, Hh, Hc, He. reflexivity.
Qed.

(** [split] and [join] are inverse: the pieces are the input, cut at the
    separators, in the input's order. *)
Lemma split_not_nil sep (s : jsstring) : split sep s <> [].
Proof.
  induction s as [|c s IH]; simpl; [discriminate|].
  destruct (c =? sep)%N; [discriminate|].
  destruct (split sep s); [contradiction|discriminate].
Qed.

Lemma join_split sep (s : jsstring) : join sep (split sep s) = s.
Proof.
  induction s as [|c s IH]; simpl; [reflexivity|].
  destruct (c =? sep)%N eqn:Hc.
  - apply N.eqb_eq in Hc; subst c.
    pose proof (split_not_nil sep s) as Hn.
    destruct (split sep s) as [|p ps]; [contradiction|].
    simpl in *. rewrite IH. reflexivity.
  - pose proof (split_not_nil sep s) as Hn.
    destruct (split sep s) as [|p ps]; [contradiction|].
    destruct ps; simpl in *; rewrite <- IH; reflexivity.
Qed.

Lemma split_length sep (s : jsstring) :
  length (split sep s) = S (count_occ N.eq_dec s sep).
Proof.
  induction s as [|c s IH]; simpl; [reflexivity|].
  destruct (c =? sep)%N eqn:Hc.
  - apply N.eqb_eq in Hc. destruct (N.eq_dec c sep); [|contradiction].
    simpl; rewrite IH; reflexivity.
  - apply N.eqb_neq in Hc. destruct (N.eq_dec c sep); [contradiction|].
    pose proof (split_not_nil sep s) as Hn.
    destruct (split sep s); [contradiction|]. simpl in *. exact IH.
Qed.

Lemma split_no_sep sep (s : jsstring) :
  Forall (fun p => ~ In sep p) (split sep s).
Proof.
  induction s as [|c s IH]; simpl.
  - constructor; auto.
  - destruct (c =? sep)%N eqn:Hc.
    + constructor; auto.
    + apply N.eqb_neq in Hc.
      destruct (split sep s) as [|p ps].
      * constructor; auto. simpl; intuition.
      * inversion IH; subst. constructor; auto. simpl; intuition.
Qed.

(** ** The tags of a submission *)

Lemma tags_falsy (raw : field jsstring) :
  truthy raw = false -> Dialog.tags raw = [].
Proof. destruct raw as [| |[|c r]]; simpl; auto; discriminate. Qed.

Lemma tags_text c r :
  Dialog.tags (Val (c :: r)) = map trim (split comma (c :: r)).
Proof. reflexivity. Qed.

Lemma submission_tags (H : Host) task teamMembers data :
  Payload.tags (Dialog.submission task teamMembers data)
  = if (0 <? length (Dialog.tags (Form.tags data)))%nat
    then Some (Dialog.tags (Form.tags data)) else None.
Proof. reflexivity. Qed.

Lemma In_map_trim_nil (pieces : list jsstring) :
  In [] (map trim pieces) <-> Exists (fun p => isBlank p = true) pieces.
Proof.
  rewrite in_map_iff, Exists_exists. split.
  - intros [p [E I]]. exists p. split; auto. apply trim_nil_iff; exact E.
  - intros [p [I E]]. exists p. split; auto. apply trim_nil_iff; exact E.
Qed.

(** C1, at the input ["a, b ,,c"]: the claim says that the tags of a
    submission never contain an empty string; the handler only splits and
    trims, so the empty piece between the two commas stays.  A lone comma
    and a lone space give a tags field made of empty strings only. *)
Lemma C1_empty_tag_kept :
  Payload.tags
    (Dialog.submission (H := utc_host) None []
       (with_tags (Val (js "a, b ,,c")) blank_form))
  = Some [js "a"; js "b"; js ""; js "c"]
  /\ In (js "") [js "a"; js "b"; js ""; js "c"]
  /\ Payload.tags
       (Dialog.submission (H := utc_host) None []
          (with_tags (Val (js ",")) blank_form))
     = Some [js ""; js ""]
  /\ Payload.tags
       (Dialog.submission (H := utc_host) None []
          (with_tags (Val (js " ")) blank_form))
     = Some [js ""].
Proof. repeat split; simpl; auto. Qed.

(** C1, as the handler has it: for every raw tag text, the tags field is
    [null] when the text is missing, [null] or empty; otherwise it is the
    non-empty sequence of the trimmed pieces of the text cut at its
    commas, one per piece and in the order of the input (joining the
    pieces with commas gives the input back), no entry holds a comma or
    white space at either end, and an entry is the empty string exactly
    where a piece is blank: empty pieces are not dropped. *)
Theorem C1_tags_split_and_trimmed :
  forall (H : Host) (task : option Task.t) (teamMembers : list Member.t)
         (data : Form.data),
    let out := Payload.tags (Dialog.submission task teamMembers data) in
    match Form.tags data with
    | Val (c :: r) =>
        let pieces := split comma (c :: r) in
        out = Some (map trim pieces)
        /\ map trim pieces <> []
        /\ length (map trim pieces) = S (count_occ N.eq_dec (c :: r) comma)
        /\ join comma pieces = c :: r
        /\ Forall (fun p => ~ In comma p) pieces
        /\ Forall (fun tag => isTrimmed tag = true) (map trim pieces)
        /\ (In [] (map trim pieces)
            <-> Exists (fun p => isBlank p = true) pieces)
    | _ => out = None
    end.
Proof.
  intros H task teamMembers data out. subst out.
  rewrite submission_tags.
  destruct (Form.tags data) as [| |[|c r]] eqn:Ht; try reflexivity.
  rewrite tags_text. cbv zeta.
  pose proof (split_not_nil comma (c :: r)) as Hn.
  assert (Hm : map trim (split comma (c :: r)) <> []).
  { destruct (split comma (c :: r)); [contradiction|discriminate]. }
  repeat split.
  - destruct (map trim (split comma (c :: r))); [contradiction|reflexivity].
  - exact Hm.
  - rewrite length_map. apply split_length.
  - apply join_split.
  - apply split_no_sep.
  - apply Forall_forall. intros tag I. apply in_map_iff in I.
    destruct I as [p [<- _]]. apply trim_isTrimmed.
  - apply In_map_trim_nil.
  - apply In_map_trim_nil.
Qed.

(** ** The reminder fields and the team of a submission *)

(** C3: a submission with the reminder disabled carries
    [reminderSet = false] and [reminderTime = null] whatever the form
    holds as reminder time; with the reminder enabled it carries
    [reminderSet = true] and the reminder time of the form. *)
Theorem C3_reminder_fields :
  forall (H : Host) (task : option Task.t) (teamMembers : list Member.t)
         (data : Form.data),
    let out := Dialog.submission task teamMembers data in
    Payload.reminderSet out = Form.reminderEnabled data
    /\ (Form.reminderEnabled data = false ->
        Payload.reminderSet out = false /\ Payload.reminderTime out = Null)
    /\ (Form.reminderEnabled data = true ->
        Payload.reminderSet out = true
        /\ Payload.reminderTime out = Form.reminderTime data).
Proof.
  intros H task teamMembers data out. subst out.
  unfold Dialog.submission; cbn [Payload.reminderSet Payload.reminderTime].
  split; [reflexivity|].
  split; intros ->; split; reflexivity.
Qed.

(** C10: an empty or missing [teamId] of the form leaves the submission
    without [teamId]; a non-empty one is passed on as it is. *)
Theorem C10_teamId_unset_when_empty :
  forall (H : Host) (task : option Task.t) (teamMembers : list Member.t)
         (data : Form.data),
    let out := Payload.teamId (Dialog.submission task teamMembers data) in
    match Form.teamId data with
    | Val (c :: r) => out = Some (c :: r)
    | Val [] | Undefined | Null => out = None
    end.
Proof.
  intros H task teamMembers data out. subst out.
  unfold Dialog.submission; cbn [Payload.teamId].
  destruct (Form.teamId data) as [| |[|c r]]; reflexivity.
Qed.

(** ** The assignee of a submission *)

(** [find] returns the first element that passes the test. *)
Lemma find_first {A} (f : A -> bool) (l : list A) (x : A) :
  find f l = Some x <->
  exists before after,
    l = before ++ x :: after /\ f x = true
    /\ forall y, In y before -> f y = false.
Proof.
  split.
  - induction l as [|a l IH]; simpl; [discriminate|].
    destruct (f a) eqn:Ha.
    + intros E; injection E as ->. exists [], l. simpl; intuition.
    + intros E. destruct (IH E) as [b [c [-> [Hx Hb]]]].
      exists (a :: b), c. simpl. repeat split; auto.
      intros y [<-|I]; auto.
  - intros [b [c [-> [Hx Hb]]]]. induction b as [|a b IH]; simpl.
    + rewrite Hx; reflexivity.
    + rewrite (Hb a (or_introl eq_refl)). apply IH.
      intros y I. apply Hb. right; exact I.
Qed.

Lemma find_absent {A} (f : A -> bool) (l : list A) :
  (forall y, In y l -> f y = false) -> find f l = None.
Proof.
  induction l as [|a l IH]; simpl; auto.
  intros Hl. rewrite (Hl a (or_introl eq_refl)). apply IH.
  intros y I. apply Hl. right; exact I.
Qed.


(** On ASCII text [toUpperCase] is the letter-wise map, on every host. *)
Lemma toUpperCase_ascii (H : Host) (s : jsstring) :
  forallb isAscii s = true -> toUpperCase s = map upperAscii s.
Proof. unfold toUpperCase. intros ->. reflexivity. Qed.



Example initials_Al :
  toUpperCase (H := utc_host) (substring 0 2 (js "Al")) = js "AL".
Proof. reflexivity. Qed.

Example initials_of_one_letter :
  toUpperCase (H := utc_host) (substring 0 2 (js "x")) = js "X".
Proof. reflexivity. Qed.

Example no_assignee_for_unknown_id :
  Payload.assignedTo
    (Dialog.submission (H := utc_host) None sample_members
       (with_assignedTo (Val (js "u9")) blank_form)) = None.
Proof. reflexivity. Qed.

(** ** The progress of a submission *)

Lemma isDigit_spec (c : N) : isDigit c = true <-> (48 <= c <= 57)%N.
Proof.
  unfold isDigit, digitValue.
  destruct ((48 <=? c) && (c <=? 57))%N eqn:E.
  - apply andb_true_iff in E. rewrite !N.leb_le in E. tauto.
  - apply andb_false_iff in E. rewrite !N.leb_gt in E.
    split; [discriminate|lia].
Qed.

Lemma digitValue_digit (c : N) :
  isDigit c = true -> digitValue c = Some (c - 48)%N.
Proof.
  unfold isDigit, digitValue.
  destruct ((48 <=? c) && (c <=? 57))%N; [reflexivity|discriminate].
Qed.

Lemma digitValue_other (c : N) : isDigit c = false -> digitValue c = None.
Proof.
  unfold isDigit. destruct (digitValue c); [discriminate|reflexivity].
Qed.

Lemma digit_not_white (c : N) : isDigit c = true -> isWhiteSpace c = false.
Proof.
  intros Hd. apply isDigit_spec in Hd. apply not_true_iff_false. intros Hw.
  unfold isWhiteSpace in Hw.
  rewrite !orb_true_iff, !andb_true_iff, !N.eqb_eq, !N.leb_le in Hw. lia.
Qed.

Lemma digit_not_sign (c : N) :
  isDigit c = true -> (c =? minus_sign)%N = false /\ (c =? plus_sign)%N = false.
Proof.
  intros Hd. apply isDigit_spec in Hd. unfold minus_sign, plus_sign.
  split; apply N.eqb_neq; lia.
Qed.

Lemma trimStart_blank_prefix (ws s : jsstring) :
  isBlank ws = true -> trimStart (ws ++ s) = trimStart s.
Proof.
  induction ws as [|c ws IH]; simpl; auto.
  intros B. apply andb_true_iff in B. destruct B as [-> B]. auto.
Qed.

Lemma leadingDigits_run (ds rest : jsstring) :
  forallb isDigit ds = true -> startsWithDigit rest = false ->
  leadingDigits (ds ++ rest) = map (fun c => (c - 48)%N) ds.
Proof.
  induction ds as [|c ds IH]; simpl; intros Hd Hr.
  - destruct rest as [|x rest]; simpl in *; auto.
    rewrite (digitValue_other _ Hr). reflexivity.
  - apply andb_true_iff in Hd. destruct Hd as [Hc Hd].
    rewrite (digitValue_digit _ Hc), IH; auto.
Qed.



(** Up to 2^53 the Number of an integer is that integer. *)
Lemma numberOf_exact (negative : bool) (value : N) :
  (value <= maxExact)%N ->
  numberOf negative value
  = if negative
    then (if (value =? 0)%N then NegZero else Num (- Z.of_N value))
    else Num (Z.of_N value).
Proof.
  intros Hv. unfold numberOf, roundToDouble.
  apply N.leb_le in Hv. rewrite Hv.
  destruct value; destruct negative; reflexivity.
Qed.


(** [parseInt] on white space, a sign, digits and a rest that does not
    go on with a digit. *)
Lemma parseInt10_run (ws sgn ds rest : jsstring) :
  isBlank ws = true ->
  sgn = [] \/ sgn = [plus_sign] \/ sgn = [minus_sign] ->
  ds <> [] ->
  forallb isDigit ds = true ->
  startsWithDigit rest = false ->
  parseInt10 (ws ++ sgn ++ ds ++ rest)
  = numberOf (str_eqb sgn [minus_sign]) (decimalValue ds).
Proof.
  intros Hws Hs Hne Hd Hr.
  destruct ds as [|d ds]; [contradiction|].
  pose proof Hd as Hd'. simpl in Hd'. apply andb_true_iff in Hd'.
  destruct Hd' as [Hd0 _].
  pose proof (digit_not_white _ Hd0) as Hw0.
  destruct (digit_not_sign _ Hd0) as [Hm0 Hp0].
  pose proof (@leadingDigits_run (d :: ds) rest Hd Hr) as Hl.
  unfold parseInt10. rewrite trimStart_blank_prefix by exact Hws.
  destruct Hs as [ -> | [ -> | -> ] ].
  - rewrite (@trimStart_fixed ([] ++ (d :: ds) ++ rest) d (ds ++ rest))
      by auto.
    cbn [app]. unfold splitSign. rewrite Hm0, Hp0.
    change (d :: ds ++ rest) with ((d :: ds) ++ rest). rewrite Hl.
    reflexivity.
  - rewrite (@trimStart_fixed ([plus_sign] ++ (d :: ds) ++ rest) plus_sign
                              ((d :: ds) ++ rest)) by auto.
    cbn [app]. unfold splitSign.
    change (plus_sign =? minus_sign)%N with false.
    change (plus_sign =? plus_sign)%N with true. cbv iota.
    change (d :: ds ++ rest) with ((d :: ds) ++ rest). rewrite Hl.
    reflexivity.
  - rewrite (@trimStart_fixed ([minus_sign] ++ (d :: ds) ++ rest) minus_sign
                              ((d :: ds) ++ rest)) by auto.
    cbn [app]. unfold splitSign.
    change (minus_sign =? minus_sign)%N with true. cbv iota.
    change (d :: ds ++ rest) with ((d :: ds) ++ rest). rewrite Hl.
    reflexivity.
Qed.



(** The digits of 2^53 + 1 give 2^53, those of 2^53 + 3 give 2^53 + 4
    (ties go to the even significand), ["-0"] gives negative zero, and
    a one followed by 309 zeros gives infinity. *)
Example parseInt10_rounds_to_a_double :
  parseInt10 (js "9007199254740993") = Num 9007199254740992
  /\ parseInt10 (js "9007199254740995") = Num 9007199254740996
  /\ parseInt10 (js "-0") = NegZero
  /\ parseInt10 (js "100000000000000000000000") = Num 99999999999999991611392
  /\ parseInt10 (49%N :: repeat 48%N 309) = PosInfinity.
Proof. repeat split; vm_compute; reflexivity. Qed.

(** The edit of task ["t1"] with tags ["a, b ,,c"], no assignee and
    progress ["50"]. *)
Example edit_of_an_existing_task :
  let out :=
    Dialog.submission (H := utc_host) (Some (sample_task None))
      sample_members
      (with_tags (Val (js "a, b ,,c"))
         (with_assignedTo (Val (js ""))
            (with_progress (js "50") blank_form))) in
  Payload.id out = Some (js "t1")
  /\ Payload.tags out = Some [js "a"; js "b"; js ""; js "c"]
  /\ Payload.assignedTo out = None
  /\ Payload.progress out = Num 50
  /\ Payload.teamId out = None.
Proof. repeat split. Qed.

(** ** The calendar *)

Lemma allFrom_spec (f : Z -> bool) (n : nat) (z : Z) :
  allFrom f z n = true ->
  forall x, (z <= x < z + Z.of_nat n)%Z -> f x = true.
Proof.
  revert z. induction n as [|k IH]; intros z Hall x Hx; [simpl in Hx; lia|].
  simpl in Hall. apply andb_true_iff in Hall. destruct Hall as [Hz Hall].
  destruct (Z.eq_dec x z) as [->|Hne]; auto.
  apply (IH _ Hall). lia.
Qed.

Lemma eraDayOk_all :
  forall doe, (0 <= doe < 146097)%Z -> eraDayOk doe = true.
Proof.
  assert (Hall : allFrom eraDayOk 0 (Z.to_nat 146097) = true)
    by (vm_compute; reflexivity).
  intros doe Hd. apply (@allFrom_spec _ _ _ Hall). rewrite Z2Nat.id; lia.
Qed.

Lemma padded4_all :
  forall n, (0 <= n < 10000)%Z -> paddedOk 4 n = true.
Proof.
  assert (Hall : allFrom (paddedOk 4) 0 (Z.to_nat 10000) = true)
    by (vm_compute; reflexivity).
  intros n Hn. apply (@allFrom_spec _ _ _ Hall). rewrite Z2Nat.id; lia.
Qed.

Lemma padded2_all :
  forall n, (0 <= n < 100)%Z -> paddedOk 2 n = true.
Proof.
  assert (Hall : allFrom (paddedOk 2) 0 (Z.to_nat 100) = true)
    by (vm_compute; reflexivity).
  intros n Hn. apply (@allFrom_spec _ _ _ Hall). rewrite Z2Nat.id; lia.
Qed.

(** Leap years repeat every 400 years. *)
Lemma isLeap_period (a e : Z) : Cal.isLeap (a + e * 400) = Cal.isLeap a.
Proof.
  unfold Cal.isLeap.
  replace ((a + e * 400) mod 4)%Z with (a mod 4)%Z
    by (replace (a + e * 400)%Z with (a + (e * 100) * 4)%Z by ring;
        rewrite Z_mod_plus_full; reflexivity).
  replace ((a + e * 400) mod 100)%Z with (a mod 100)%Z
    by (replace (a + e * 400)%Z with (a + (e * 4) * 100)%Z by ring;
        rewrite Z_mod_plus_full; reflexivity).
  rewrite Z_mod_plus_full. reflexivity.
Qed.

Lemma daysInMonth_period (y e m : Z) :
  Cal.daysInMonth (y + e * 400) m = Cal.daysInMonth y m.
Proof. unfold Cal.daysInMonth. rewrite isLeap_period. reflexivity. Qed.

(** Every day number is the day number of the date computed for it, and
    that date is a date of the calendar. *)
Lemma civilFromDays_sound (z y m d : Z) :
  Cal.civilFromDays z = (y, m, d) ->
  (1 <= m <= 12 /\ 1 <= d <= Cal.daysInMonth y m
   /\ Cal.daysFromCivil y m d = z)%Z.
Proof.
  unfold Cal.civilFromDays.
  set (z' := (z + 719468)%Z). set (era := (z' / 146097)%Z).
  set (doe := (z' - era * 146097)%Z).
  assert (Hdoe : (0 <= doe < 146097)%Z).
  { subst doe era. pose proof (Z.div_mod z' 146097 ltac:(lia)).
    pose proof (Z.mod_pos_bound z' 146097 ltac:(lia)). lia. }
  pose proof (eraDayOk_all Hdoe) as Hok. unfold eraDayOk in Hok.
  destruct (Cal.civilOfEraDay doe) as [[yoe mp] d0].
  set (m0 := if (mp <? 10)%Z then (mp + 3)%Z else (mp - 9)%Z) in *.
  rewrite !andb_true_iff, !Z.leb_le, Z.eqb_eq in Hok.
  destruct Hok as [[[[[[Hy0 Hy1] Hm0] Hm1] Hd0] Hd1] Hsum].
  intros E. injection E as <- <- <-.
  assert (Hm : (1 <= m0 <= 12)%Z).
  { subst m0. destruct (Z.ltb_spec mp 10); lia. }
  split; [exact Hm|].
  assert (Hmp : (if (m0 <=? 2)%Z then (m0 + 9)%Z else (m0 - 3)%Z) = mp).
  { subst m0. destruct (Z.ltb_spec mp 10).
    - destruct (Z.leb_spec (mp + 3) 2); lia.
    - destruct (Z.leb_spec (mp - 9) 2); lia. }
  assert (Hdiv : ((yoe + era * 400) / 400 = era)%Z).
  { rewrite Z.div_add by lia. rewrite Z.div_small by lia. lia. }
  split.
  - split; [exact Hd0|].
    destruct (m0 <=? 2)%Z.
    + replace (yoe + era * 400 + 1)%Z with (yoe + 1 + era * 400)%Z by ring.
      rewrite daysInMonth_period. exact Hd1.
    + rewrite daysInMonth_period. exact Hd1.
  - unfold Cal.daysFromCivil. rewrite Hmp.
    replace (if (m0 <=? 2)%Z
             then ((if (m0 <=? 2)%Z
                    then (yoe + era * 400 + 1)%Z
                    else (yoe + era * 400)%Z) - 1)%Z
             else (if (m0 <=? 2)%Z
                   then (yoe + era * 400 + 1)%Z
                   else (yoe + era * 400)%Z))
      with (yoe + era * 400)%Z by (destruct (m0 <=? 2)%Z; lia).
    cbv zeta. rewrite Hdiv.
    replace (yoe + era * 400 - era * 400)%Z with yoe by lia.
    subst doe z'. lia.
Qed.

(** January 1st of year [y] is day [DayFromYear(y)]. *)
Lemma daysFromCivil_new_year (y : Z) :
  Cal.daysFromCivil y 1 1 = Cal.DayFromYear y.
Proof.
  unfold Cal.daysFromCivil, Cal.DayFromYear.
  change (1 <=? 2)%Z with true. cbv iota zeta.
  change ((153 * (1 + 9) + 2) / 5)%Z with 306%Z.
  Z.div_mod_to_equations. lia.
Qed.

(** The closed forms agree with the definitions of ECMAScript: the day
    number of a date is [DayFromYear] of its year, plus the days of the
    months before, plus the day of the month; so the year computed for a
    day number [z] is the one with
    [DayFromYear y <= z < DayFromYear (y + 1)]. *)
Lemma isLeap_cases (y : Z) :
  (Cal.isLeap y = true
   /\ ((y mod 4 = 0 /\ y mod 100 <> 0) \/ y mod 400 = 0)%Z)
  \/ (Cal.isLeap y = false
      /\ (y mod 4 <> 0 \/ y mod 100 = 0)%Z /\ (y mod 400 <> 0)%Z).
Proof.
  unfold Cal.isLeap.
  destruct (Z.eqb_spec (y mod 4) 0), (Z.eqb_spec (y mod 100) 0),
    (Z.eqb_spec (y mod 400) 0); simpl; tauto.
Qed.

Ltac month_by_month Hm m :=
  let Hc := fresh "Hc" in
  assert (Hc : (m = 1 \/ m = 2 \/ m = 3 \/ m = 4 \/ m = 5 \/ m = 6
                \/ m = 7 \/ m = 8 \/ m = 9 \/ m = 10 \/ m = 11
                \/ m = 12)%Z) by lia;
  clear Hm; repeat (destruct Hc as [ -> | Hc ]); try subst m.

Ltac fold_month_table :=
  repeat match goal with
    | |- context [fold_right Z.add 0%Z ?l] =>
        let v := eval vm_compute in (fold_right Z.add 0%Z l) in
        change (fold_right Z.add 0%Z l) with v
    | H : context [fold_right Z.add 0%Z ?l] |- _ =>
        let v := eval vm_compute in (fold_right Z.add 0%Z l) in
        change (fold_right Z.add 0%Z l) with v in H
    end.

Lemma daysFromCivil_spec (y m d : Z) :
  (1 <= m <= 12)%Z ->
  Cal.daysFromCivil y m d
  = (Cal.DayFromYear y + daysBeforeMonth y m + d - 1)%Z.
Proof.
  intros Hm.
  unfold Cal.daysFromCivil, Cal.DayFromYear, daysBeforeMonth, Cal.daysInMonth.
  destruct (isLeap_cases y) as [ [ -> Hl ] | [ -> Hl ] ];
    month_by_month Hm m; fold_month_table;
    cbn [Z.leb Z.compare Pos.compare Pos.compare_cont];
    Z.div_mod_to_equations; lia.
Qed.

Lemma civilFromDays_year (z y m d : Z) :
  Cal.civilFromDays z = (y, m, d) ->
  (z = Cal.DayFromYear y + daysBeforeMonth y m + d - 1
   /\ Cal.DayFromYear y <= z < Cal.DayFromYear (y + 1))%Z.
Proof.
  intros E. destruct (civilFromDays_sound E) as [Hm [Hd Hz]].
  rewrite (daysFromCivil_spec y d Hm) in Hz.
  split; [lia|]. subst z. revert Hd.
  unfold Cal.DayFromYear, daysBeforeMonth, Cal.daysInMonth.
  destruct (isLeap_cases y) as [ [ -> Hl ] | [ -> Hl ] ];
    month_by_month Hm m; fold_month_table;
    cbn [Z.eqb Pos.eqb orb]; intros Hd;
    Z.div_mod_to_equations; lia.
Qed.

(** ** Storage dates *)

Lemma paddedOk_inv (width : nat) (n : Z) :
  paddedOk width n = true ->
  exists k,
    length (DateFns.addLeadingZeros n width) = width
    /\ parseDigits (DateFns.addLeadingZeros n width) = Some k
    /\ Z.of_N k = n.
Proof.
  unfold paddedOk. intros Hok. apply andb_true_iff in Hok.
  destruct Hok as [Hl Hp]. apply Nat.eqb_eq in Hl.
  destruct (parseDigits (DateFns.addLeadingZeros n width)) as [k|];
    [|discriminate].
  apply Z.eqb_eq in Hp. exists k. auto.
Qed.

Lemma daysInMonth_le_31 (y m : Z) : (Cal.daysInMonth y m <= 31)%Z.
Proof.
  unfold Cal.daysInMonth.
  destruct (m =? 2)%Z; [destruct (Cal.isLeap y); lia|].
  destruct ((m =? 4)%Z || (m =? 6)%Z || (m =? 9)%Z || (m =? 11)%Z); lia.
Qed.

(** A date-only text of a calendar date is read as midnight UTC. *)
Lemma newDate_date_only (H : Host) (ty tm td : jsstring) (y m d : N) :
  length ty = 4 -> length tm = 2 -> length td = 2 ->
  parseDigits ty = Some y -> parseDigits tm = Some m ->
  parseDigits td = Some d ->
  (1 <= Z.of_N m <= 12)%Z ->
  (1 <= Z.of_N d <= Cal.daysInMonth (Z.of_N y) (Z.of_N m))%Z ->
  newDate (ty ++ [hyphen] ++ tm ++ [hyphen] ++ td)
  = DateAt (Cal.daysFromCivil (Z.of_N y) (Z.of_N m) (Z.of_N d)
            * Cal.msPerDay).
Proof.
  intros Ly Lm Ld Py Pm Pd Hm Hd.
  destruct ty as [|y1 [|y2 [|y3 [|y4 [|? ?]]]]]; try discriminate Ly.
  destruct tm as [|m1 [|m2 [|? ?]]]; try discriminate Lm.
  destruct td as [|d1 [|d2 [|? ?]]]; try discriminate Ld.
  unfold newDate, parseDateOnly. cbn [app].
  change ((hyphen =? hyphen)%N) with true. cbn [andb].
  rewrite Py, Pm, Pd.
  replace ((1 <=? Z.of_N m)%Z && (Z.of_N m <=? 12)%Z && (1 <=? Z.of_N d)%Z
           && (Z.of_N d <=? Cal.daysInMonth (Z.of_N y) (Z.of_N m))%Z)
    with true; [reflexivity|].
  symmetry. rewrite !andb_true_iff, !Z.leb_le. lia.
Qed.

Lemma Day_of_midnight (z : Z) : Cal.Day (z * Cal.msPerDay) = z.
Proof. unfold Cal.Day, Cal.msPerDay. apply Z.div_mul. lia. Qed.

Lemma Day_after_midnight (z off : Z) :
  (0 <= off < Cal.msPerDay)%Z -> Cal.Day (z * Cal.msPerDay + off) = z.
Proof.
  unfold Cal.Day, Cal.msPerDay. intros Ho.
  rewrite Z.add_comm, Z.div_add by lia. rewrite Z.div_small by lia. lia.
Qed.

Lemma Day_before_midnight (z off : Z) :
  (- Cal.msPerDay <= off < 0)%Z ->
  Cal.Day (z * Cal.msPerDay + off) = (z - 1)%Z.
Proof.
  unfold Cal.msPerDay. intros Ho.
  replace (z * 86400000 + off)%Z
    with ((z - 1) * 86400000 + (off + 86400000))%Z by ring.
  apply Day_after_midnight. unfold Cal.msPerDay. lia.
Qed.

(** C2, five hours west of UTC: the claim says that a date written to
    storage and read back is the same calendar date.  Local midnight of
    15 March 2024 is written as ["2024-03-15"]; the text is read back as
    midnight UTC, which on this host is the evening of 14 March.  On any
    host, a date of year 0 is written with year 0001 and comes back a year
    later. *)
Lemma C2_round_trip_loses_a_day :
  Api.formatDateForSupabase (H := new_york_host) (DateAt 1710478800000)
  = Returned (js "2024-03-15")
  /\ Api.parseDateFromSupabase (H := new_york_host) (Some (js "2024-03-15"))
     = Some (DateAt 1710460800000)
  /\ localYMD (H := new_york_host) 1710478800000 = (2024, 3, 15)%Z
  /\ localYMD (H := new_york_host) 1710460800000 = (2024, 3, 14)%Z
  /\ Api.formatDateForSupabase (H := utc_host) (DateAt (-62167219200000))
     = Returned (js "0001-01-01")
  /\ Api.parseDateFromSupabase (H := utc_host) (Some (js "0001-01-01"))
     = Some (DateAt (-62135596800000))
  /\ localYMD (H := utc_host) (-62167219200000) = (0, 1, 1)%Z
  /\ localYMD (H := utc_host) (-62135596800000) = (1, 1, 1)%Z.
Proof. repeat split; vm_compute; reflexivity. Qed.

(** C2, as the two helpers have it: a valid date whose local year is
    between 1 and 9999 is written as a text that is read back as midnight
    UTC of the same calendar day.  The UTC date of the result is the local
    date of the original; its local date is that date too where local time
    is UTC or ahead of it, and the day before where local time is behind
    UTC. *)
Theorem C2_round_trip_is_utc_midnight :
  forall (H : Host) (t y m d : Z),
    localYMD t = (y, m, d) ->
    (1 <= y <= 9999)%Z ->
    let t' := (Cal.Day (LocalTime t) * Cal.msPerDay)%Z in
    exists text : jsstring,
      Api.formatDateForSupabase (DateAt t) = Returned text
      /\ Api.parseDateFromSupabase (Some text) = Some (DateAt t')
      /\ utcYMD t' = (y, m, d)
      /\ ((0 <= LocalTZA t' < Cal.msPerDay)%Z -> localYMD t' = (y, m, d))
      /\ ((- Cal.msPerDay <= LocalTZA t' < 0)%Z ->
          localYMD t' = Cal.civilFromDays (Cal.Day (LocalTime t) - 1)).
Proof.
  intros H t y m d Hymd Hy t'.
  unfold localYMD in Hymd.
  destruct (civilFromDays_sound Hymd) as [Hm [Hd Hz]].
  pose proof (daysInMonth_le_31 y m) as H31.
  assert (By : (0 <= y < 10000)%Z) by lia.
  assert (Bm : (0 <= m < 100)%Z) by lia.
  assert (Bd : (0 <= d < 100)%Z) by lia.
  destruct (@paddedOk_inv 4 y (@padded4_all y By)) as [ky [Ly [Py Ey]]].
  destruct (@paddedOk_inv 2 m (@padded2_all m Bm)) as [km [Lm [Pm Em]]].
  destruct (@paddedOk_inv 2 d (@padded2_all d Bd)) as [kd [Ld [Pd Ed]]].
  exists (DateFns.addLeadingZeros y 4 ++ [hyphen]
          ++ DateFns.addLeadingZeros m 2 ++ [hyphen]
          ++ DateFns.addLeadingZeros d 2).
  split; [|split; [|split; [|split]]].
  - unfold Api.formatDateForSupabase, DateFns.format_yyyy_MM_dd, localYMD.
    rewrite Hymd. unfold DateFns.eraYear.
    destruct (Z.ltb_spec 0 y); [reflexivity|lia].
  - assert (Hnew :
      newDate (DateFns.addLeadingZeros y 4 ++ [hyphen]
               ++ DateFns.addLeadingZeros m 2 ++ [hyphen]
               ++ DateFns.addLeadingZeros d 2) = DateAt t').
    { rewrite (@newDate_date_only H _ _ _ _ _ _ Ly Lm Ld Py Pm Pd);
        rewrite ?Ey, ?Em, ?Ed; auto.
      subst t'. rewrite Hz. reflexivity. }
    unfold Api.parseDateFromSupabase.
    destruct (DateFns.addLeadingZeros y 4) as [|c r] eqn:Ety;
      [discriminate Ly|].
    cbn [app] in *. rewrite Hnew. reflexivity.
  - unfold utcYMD. subst t'. rewrite Day_of_midnight. exact Hymd.
  - intros Hoff. unfold localYMD, LocalTime. subst t'.
    rewrite Day_after_midnight by exact Hoff. exact Hymd.
  - intros Hoff. unfold localYMD, LocalTime. subst t'.
    rewrite Day_before_midnight by exact Hoff. reflexivity.
Qed.

(** C2 on the UTC host, for midnight of 15 March 2024. *)
Lemma C2_round_trip_is_utc_midnight_witness :
  localYMD (H := utc_host) 1710460800000 = (2024, 3, 15)%Z
  /\ (1 <= 2024 <= 9999)%Z
  /\ exists text : jsstring,
       Api.formatDateForSupabase (H := utc_host) (DateAt 1710460800000)
       = Returned text
       /\ Api.parseDateFromSupabase (H := utc_host) (Some text)
          = Some (DateAt 1710460800000).
Proof.
  assert (Hl : localYMD (H := utc_host) 1710460800000 = (2024, 3, 15)%Z)
    by (vm_compute; reflexivity).
  assert (Hy : (1 <= 2024 <= 9999)%Z) by lia.
  split; [exact Hl|]. split; [exact Hy|].
  destruct (@C2_round_trip_is_utc_midnight utc_host _ _ _ _ Hl Hy)
    as [text [Hf [Hp _]]].
  exists text. split; [exact Hf|exact Hp].
Defined.

(** ** Team lookup *)

(** C6: on every backend and for every user, [getTeams] returns and never
    throws.  It returns the empty sequence when the membership lookup
    reports an error or is rejected, when it yields no rows, and when the
    team lookup that follows reports an error or is rejected; an error is
    written to the console and goes no further. *)
Theorem C6_getTeams_swallows_failures :
  forall (W : Type) (B : Backend W) (userId : jsstring) (s : Session W),
    let q1 := SelectMemberships userId in
    let r1 := fst (serve q1 (world s)) in
    let s1 := after q1 (snd (serve q1 (world s))) s in
    (exists teams, fst (Api.getTeams userId s) = Returned teams)
    /\ (forall e, reportedError r1 = Some e ->
        Api.getTeams userId s
        = (Returned [], logged (console_error "Error fetching teams:" e) s1))
    /\ (r1 = Resolved None None \/ r1 = Resolved (Some []) None ->
        Api.getTeams userId s = (Returned [], s1))
    /\ (forall row rows e,
          r1 = Resolved (Some (row :: rows)) None ->
          let q2 := SelectTeams (map Membership.team_id (row :: rows)) in
          reportedError (fst (serve q2 (world s1))) = Some e ->
          Api.getTeams userId s
          = (Returned [],
             logged (console_error "Error fetching teams:" e)
                    (after q2 (snd (serve q2 (world s1))) s1))).
Proof.
  intros W B userId s q1 r1 s1.
  unfold Api.getTeams, tryCatch, bind, await.
  subst r1 s1 q1.
  destruct (serve (SelectMemberships userId) (world s)) as [r1 w1].
  cbn [fst snd].
  destruct r1 as [[[|row rows]|] [e1|] | e1]; cbn [reportedError];
    try (split; [|split; [|split]];
         [ eexists; reflexivity
         | intros e E; try discriminate E; injection E as <-; reflexivity
         | intros [E|E]; try discriminate E; reflexivity
         | intros ? ? ? E; discriminate E ]).
  (* the membership lookup gave rows: the team lookup decides *)
  unfold throw, ret, write, after, logged.
  cbn [world sent console].
  destruct (serve (SelectTeams (map Membership.team_id (row :: rows))) w1)
    as [r2 w2] eqn:E2.
  split; [|split; [|split]].
  - destruct r2 as [d2 [e2|] | e2]; eexists; reflexivity.
  - intros e E; discriminate E.
  - intros [E|E]; discriminate E.
  - intros row0 rows0 e E. injection E as <- <-. cbv zeta.
    rewrite E2. cbn [fst snd].
    destruct r2 as [d2 [e2|] | e2]; cbn [reportedError]; intros E;
      try discriminate E; injection E as <-; reflexivity.
Qed.

Example getTeams_of_a_member :
  fst (Api.getTeams (js "u1") (start (sample_store [])))
  = Returned [storedTeam (empty_store []) (teamRowOf sample_params)]
  /\ fst (Api.getTeams (js "u2") (start (sample_store []))) = Returned [].
Proof. split; reflexivity. Qed.

Example getTeams_when_the_team_lookup_is_rejected :
  Api.getTeams (js "u1")
    (start (sample_store [Pass; Reject (RemoteError (js "offline"))]))
  = (Returned [],
     {| world := sample_store [];
        sent := [SelectMemberships (js "u1"); SelectTeams [js "team-0"]];
        console := [console_error "Error fetching teams:"
                      (RemoteError (js "offline"))] |}).
Proof. reflexivity. Qed.

(** ** Team creation *)

Lemma teamRowOf_eq (params : CreateTeamParams.t) :
  {| NewTeam.name := CreateTeamParams.name params;
     NewTeam.description :=
       match CreateTeamParams.description params with
       | Some (c :: r) => Some (c :: r)
       | _ => None
       end;
     NewTeam.created_by := CreateTeamParams.created_by params |}
  = teamRowOf params.
Proof.
  unfold teamRowOf.
  destruct (CreateTeamParams.description params) as [[|c r]|]; reflexivity.
Qed.

(** The run of [createTeam] on a store that lets the first request through
    and answers the second with an error. *)
Lemma createTeam_on_store (params : CreateTeamParams.t) (st : Store.t)
    (e : Error) (rest : list Fault) :
  Store.faults st = Pass :: Report e :: rest ->
  let team := storedTeam st (teamRowOf params) in
  Api.createTeam params (start st)
  = (Threw e,
     {| world :=
          Store.with_faults rest
            (Store.add_team team (Store.with_faults (Report e :: rest) st));
        sent := [InsertTeam (teamRowOf params);
                 InsertTeamMember (creatorRowOf params team)];
        console := [console_error "Error creating team:" e] |}).
Proof.
  intros Hf team. subst team.
  unfold Api.createTeam. rewrite teamRowOf_eq.
  destruct st as [ts ms n u c fs]. cbn [Store.faults] in Hf. subst fs.
  reflexivity.
Qed.

(** C7: on every backend, [createTeam] first sends the insertion of the
    team row.  If that reports an error, the error is thrown to the caller
    and nothing else is sent.  Otherwise the insertion of the creator's
    membership, with the admin role, is sent next; if it reports an error,
    the error is thrown to the caller, and if not, the created team is
    returned.  The two insertions are separate requests: on the store, a
    membership insertion that fails after the team insertion went through
    leaves the new team row in [teams] and leaves [team_members] as it
    was, so the team has no members. *)
Theorem C7_createTeam_two_inserts :
  (forall (W : Type) (B : Backend W) (params : CreateTeamParams.t)
          (s : Session W),
     let q1 := InsertTeam (teamRowOf params) in
     let r1 := fst (serve q1 (world s)) in
     let s1 := after q1 (snd (serve q1 (world s))) s in
     (forall e, reportedError r1 = Some e ->
        Api.createTeam params s
        = (Threw e, logged (console_error "Error creating team:" e) s1))
     /\ (forall team,
           r1 = Resolved (Some team) None ->
           let q2 := InsertTeamMember (creatorRowOf params team) in
           let r2 := fst (serve q2 (world s1)) in
           let s2 := after q2 (snd (serve q2 (world s1))) s1 in
           sent s2 = sent s ++ [q1; q2]
           /\ (forall e, reportedError r2 = Some e ->
                 Api.createTeam params s
                 = (Threw e,
                    logged (console_error "Error creating team:" e) s2))
           /\ (reportedError r2 = None ->
                 Api.createTeam params s = (Returned team, s2))))
  /\ (forall (params : CreateTeamParams.t) (st : Store.t) (e : Error)
             (rest : list Fault),
        Store.faults st = Pass :: Report e :: rest ->
        let team := storedTeam st (teamRowOf params) in
        let final := world (snd (Api.createTeam params (start st))) in
        fst (Api.createTeam params (start st)) = Threw e
        /\ Store.teams final = Store.teams st ++ [team]
        /\ Store.team_members final = Store.team_members st
        /\ (Store.members_of (Team.id team) st = [] ->
            Store.members_of (Team.id team) final = [])).
Proof.
  split.
  - intros W B params s q1 r1 s1.
    unfold Api.createTeam, tryCatch, bind, await.
    rewrite teamRowOf_eq. subst r1 s1 q1.
    destruct (serve (InsertTeam (teamRowOf params)) (world s)) as [r1 w1].
    cbn [fst snd].
    destruct r1 as [[team|] [e1|] | e1]; cbn [reportedError];
      (split;
       [ intros e E; try discriminate E; injection E as <-; reflexivity
       | intros team0 E; try discriminate E ]).
    injection E as <-. cbv zeta.
    fold (creatorRowOf params team).
    unfold after. cbn [world sent console].
    destruct (serve (InsertTeamMember (creatorRowOf params team)) w1)
      as [r2 w2].
    cbn [fst snd]. unfold after. cbn [world sent console].
    split; [rewrite <- app_assoc; reflexivity|].
    destruct r2 as [d2 [e2|] | e2]; cbn [reportedError];
      (split;
       [ intros e E; try discriminate E; injection E as <-; reflexivity
       | intros E; try discriminate E; reflexivity ]).
  - intros params st e rest Hf team final. subst team final.
    rewrite (createTeam_on_store params st Hf).
    cbn [fst snd world Store.teams Store.team_members Store.with_faults
         Store.add_team].
    split; [reflexivity|]. split; [reflexivity|]. split; [reflexivity|].
    unfold Store.members_of.
    cbn [Store.team_members Store.with_faults Store.add_team]. auto.
Qed.

Example createTeam_succeeds_on_empty_store :
  fst (Api.createTeam sample_params (start (empty_store [])))
  = Returned (storedTeam (empty_store []) (teamRowOf sample_params))
  /\ map TeamMemberRow.role
       (Store.members_of (js "team-0")
          (world (snd (Api.createTeam sample_params
                         (start (empty_store []))))))
     = [admin].
Proof. split; reflexivity. Qed.

Example createTeam_leaves_a_team_without_members :
  fst (Api.createTeam sample_params
         (start (empty_store [Pass; Report (RemoteError (js "denied"))])))
  = Threw (RemoteError (js "denied"))
  /\ map Team.id
       (Store.teams
          (world (snd (Api.createTeam sample_params
                         (start (empty_store
                                   [Pass;
                                    Report (RemoteError (js "denied"))]))))))
     = [js "team-0"]
  /\ Store.members_of (js "team-0")
       (world (snd (Api.createTeam sample_params
                      (start (empty_store
                                [Pass;
                                 Report (RemoteError (js "denied"))])))))
     = [].
Proof. repeat split. Qed.

(** ** Reminder scheduling *)

Section Reminder.
Context {W : Type} {B : Backend W} {H : Host}.

Lemma bind_ret_l {A C} (a : A) (k : A -> M W C) : bind (ret a) k = k a.
Proof. reflexivity. Qed.

(** Without the three conditions nothing happens at all. *)
Lemma schedule_not_wanted (task : Task.t) (s : Session W) :
  reminderWanted task = false ->
  Api.scheduleTaskReminder task s = (Returned tt, s).
Proof.
  unfold reminderWanted, Api.scheduleTaskReminder. intros Hw.
  replace (negb (Api.truthyFlag (Task.reminderSet task))
           || negb (Api.truthyFlag (Task.emailNotification task))
           || negb (Api.truthyText (Task.notificationEmail task)))
    with true; [reflexivity|].
  rewrite <- !negb_andb, Hw. reflexivity.
Qed.

(** An invalid due date stops the call before anything is sent. *)
Lemma schedule_invalid_date (task : Task.t) (s : Session W) :
  reminderWanted task = true ->
  Task.dueDate task = Some InvalidDate ->
  Api.scheduleTaskReminder task s
  = (Threw RangeError,
     logged (console_error "Error scheduling reminder:" RangeError) s).
Proof.
  unfold reminderWanted, Api.scheduleTaskReminder. intros Hw Hd.
  replace (negb (Api.truthyFlag (Task.reminderSet task))
           || negb (Api.truthyFlag (Task.emailNotification task))
           || negb (Api.truthyText (Task.notificationEmail task)))
    with false by (rewrite <- !negb_andb, Hw; reflexivity).
  rewrite Hd. reflexivity.
Qed.

Lemma reminderBody_eq (task : Task.t) (email : jsstring) (due : JsonValue) :
  JSON_stringify
    [("taskId", Some (JString (Task.id task)));
     ("email", option_map JString (Some email));
     ("taskTitle", Some (JString (Task.title task)));
     ("dueDate", Some due);
     ("dueTime", option_map JString (Task.dueTime task))]%string
  = reminderBody task email due.
Proof.
  unfold reminderBody. destruct (Task.dueTime task); reflexivity.
Qed.

(** With the three conditions and a due date that can be shown, exactly
    the reminder request is sent, and its reply decides the outcome. *)
Lemma schedule_sends (task : Task.t) (s : Session W) email due :
  reminderWanted task = true ->
  Task.notificationEmail task = Some email ->
  dueDateJson task = Some due ->
  let q := sendReminder task email due in
  let s' := after q (snd (serve q (world s))) s in
  Api.scheduleTaskReminder task s
  = match reportedError (fst (serve q (world s))) with
    | Some e =>
        (Threw e, logged (console_error "Error scheduling reminder:" e) s')
    | None =>
        (Returned tt,
         logged (console_log "Reminder scheduled successfully") s')
    end.
Proof.
  intros Hw He Hd q s'. unfold reminderWanted in Hw.
  unfold Api.scheduleTaskReminder.
  replace (negb (Api.truthyFlag (Task.reminderSet task))
           || negb (Api.truthyFlag (Task.emailNotification task))
           || negb (Api.truthyText (Task.notificationEmail task)))
    with false by (rewrite <- !negb_andb, Hw; reflexivity).
  cbn [negb]. rewrite He.
  assert (Hdue :
    match Task.dueDate task with
    | Some d => bind (lift (DateFns.format_PP d)) (fun t => ret (JString t))
    | None => ret JNull
    end = (ret due : M W JsonValue)).
  { unfold dueDateJson in Hd.
    destruct (Task.dueDate task) as [[|t]|].
    - discriminate Hd.
    - destruct (DateFns.format_PP (DateAt t)); [|discriminate Hd].
      injection Hd as <-. reflexivity.
    - injection Hd as <-. reflexivity. }
  rewrite Hdue, bind_ret_l, reminderBody_eq.
  fold (sendReminder task email due). fold q.
  unfold tryCatch, bind, ret, await. subst s'.
  destruct (serve q (world s)) as [r w]. cbn [fst snd].
  destruct r as [d [e|] | e]; reflexivity.
Qed.

Lemma dueDateJson_none (task : Task.t) :
  dueDateJson task = None <-> Task.dueDate task = Some InvalidDate.
Proof.
  unfold dueDateJson, DateFns.format_PP.
  destruct (Task.dueDate task) as [[|t]|].
  - tauto.
  - destruct (localYMD t) as [[y m] d]. split; discriminate.
  - split; discriminate.
Qed.

Lemma wanted_has_email (task : Task.t) :
  reminderWanted task = true ->
  exists email, Task.notificationEmail task = Some email.
Proof.
  unfold reminderWanted. rewrite !andb_true_iff. intros [_ He].
  destruct (Task.notificationEmail task) as [email|]; [|discriminate He].
  exists email; reflexivity.
Qed.

End Reminder.

(** C5, at a task whose due date is an invalid [Date]: the claim says that
    a task with the three conditions always has its reminder request sent
    once.  Showing the due date throws before the request is made, so
    nothing is sent and the call fails. *)
Lemma C5_invalid_due_date_sends_nothing :
  reminderWanted (sample_task (Some InvalidDate)) = true
  /\ Api.scheduleTaskReminder (H := utc_host)
       (sample_task (Some InvalidDate)) (start (empty_store []))
     = (Threw RangeError,
        {| world := empty_store [];
           sent := [];
           console :=
             [console_error "Error scheduling reminder:" RangeError] |}).
Proof. split; reflexivity. Qed.

(** C5, as the scheduler has it: without all three of [reminderSet], the
    e-mail flag and the address, the call returns at once, sends nothing
    and leaves the session as it was.  With all three, and a due date
    that is missing or valid, exactly one request is sent, the invocation
    of ['send-reminder'], whose body holds the task's id, the address, the
    title, the due date as display text ([null] when missing) and the due
    time when the task has one. *)
Theorem C5_reminder_gate_and_payload :
  forall (W : Type) (B : Backend W) (H : Host) (task : Task.t)
         (s : Session W),
    (reminderWanted task = false ->
     Api.scheduleTaskReminder task s = (Returned tt, s))
    /\ (reminderWanted task = true ->
        exists email,
          Task.notificationEmail task = Some email
          /\ forall due,
               dueDateJson task = Some due ->
               let q := sendReminder task email due in
               sent (snd (Api.scheduleTaskReminder task s)) = sent s ++ [q]
               /\ world (snd (Api.scheduleTaskReminder task s))
                  = snd (serve q (world s)))
    /\ (Task.dueDate task = None -> dueDateJson task = Some JNull)
    /\ (forall t, Task.dueDate task = Some (DateAt t) ->
        exists text,
          DateFns.format_PP (DateAt t) = Returned text
          /\ dueDateJson task = Some (JString text)).
Proof.
  intros W B H task s.
  split; [apply schedule_not_wanted|].
  split; [|split].
  - intros Hw. destruct (wanted_has_email task Hw) as [email He].
    exists email. split; [exact He|].
    intros due Hd q.
    rewrite (schedule_sends task s Hw He Hd). fold q.
    destruct (reportedError (fst (serve q (world s)))); split; reflexivity.
  - unfold dueDateJson. intros ->. reflexivity.
  - unfold dueDateJson, DateFns.format_PP. intros t ->.
    destruct (localYMD t) as [[y m] d]. eexists. split; reflexivity.
Qed.

Example reminder_request_of_a_dated_task :
  sent (snd (Api.scheduleTaskReminder (H := utc_host)
               (sample_task (Some (DateAt 1710460800000)))
               (start (empty_store []))))
  = [FunctionsInvoke (js "send-reminder")
       [("taskId", JString (js "t1"));
        ("email", JString (js "al@example.org"));
        ("taskTitle", JString (js "Pay rent"));
        ("dueDate", JString (js "Mar 15, 2024"));
        ("dueTime", JString (js "09:00"))]%string].
Proof. vm_compute. reflexivity. Qed.

(** C8, at a task whose due date came out of a text that is no date: the
    claim says that the scheduler raises an error only when the
    invocation it made reported one.  Here it raises a [RangeError] and
    has made no invocation. *)
Lemma C8_error_without_invocation :
  Api.parseDateFromSupabase (H := utc_host) (Some (js "soon"))
  = Some InvalidDate
  /\ fst (Api.scheduleTaskReminder (H := utc_host)
            (sample_task (Some InvalidDate)) (start (empty_store [Pass])))
     = Threw RangeError
  /\ sent (snd (Api.scheduleTaskReminder (H := utc_host)
                  (sample_task (Some InvalidDate))
                  (start (empty_store [Pass]))))
     = [].
Proof. repeat split. Qed.

(** C8, as the scheduler has it: the call throws exactly in two cases,
    both with the three conditions met: the due date is an invalid [Date],
    and the error is the [RangeError] of showing it, raised before any
    invocation; or the invocation of ['send-reminder'] was made and reported
    an error (or was rejected), and that same error is thrown to the
    caller.  No error is swallowed. *)
Theorem C8_reminder_errors_propagate :
  forall (W : Type) (B : Backend W) (H : Host) (task : Task.t)
         (s : Session W) (e : Error),
    fst (Api.scheduleTaskReminder task s) = Threw e
    <-> reminderWanted task = true
        /\ ((Task.dueDate task = Some InvalidDate /\ e = RangeError)
            \/ exists email due,
                 Task.notificationEmail task = Some email
                 /\ dueDateJson task = Some due
                 /\ reportedError
                      (fst (serve (sendReminder task email due) (world s)))
                    = Some e).
Proof.
  intros W B H task s e.
  destruct (reminderWanted task) eqn:Hw.
  - destruct (wanted_has_email task Hw) as [email He].
    destruct (dueDateJson task) as [due|] eqn:Hd.
    + rewrite (schedule_sends task s Hw He Hd).
      assert (Hvalid : Task.dueDate task <> Some InvalidDate).
      { intros Hi. apply dueDateJson_none in Hi. congruence. }
      split.
      * intros Hrun. split; [reflexivity|]. right. exists email, due.
        repeat split; auto.
        destruct (reportedError
                    (fst (serve (sendReminder task email due) (world s))));
          cbn [fst] in Hrun; congruence.
      * intros [_ [[Hi _]|[email' [due' [He' [Hd' Hr]]]]]];
          [contradiction|].
        assert (email' = email) by congruence.
        assert (due' = due) by congruence. subst email' due'.
        rewrite Hr. reflexivity.
    + apply dueDateJson_none in Hd.
      rewrite (schedule_invalid_date task s Hw Hd). cbn [fst].
      split.
      * intros E. injection E as <-. split; [reflexivity|]. left. auto.
      * intros [_ [[_ ->]|[email' [due' [_ [Hd' _]]]]]]; [reflexivity|].
        apply dueDateJson_none in Hd. congruence.
  - rewrite (schedule_not_wanted task s Hw). cbn [fst].
    split; [discriminate|]. intros [Hf _]. discriminate Hf.
Qed.

(* ================================================================= *)
(** * Part III: further properties of the code *)
(* ================================================================= *)

(** ** Team members *)

(** X1: on every service, [getTeamMembers] returns and never throws.  It
    returns the empty sequence when the membership lookup reports an
    error or is rejected, when it yields no rows (the profiles are then
    not asked for), and when the profile lookup reports an error or is
    rejected; an error is written to the console and goes no further. *)
Theorem X1_getTeamMembers_swallows_failures :
  forall (W : Type) (S : Service W) (teamId : jsstring) (s : Page W),
    let q1 := TeamMembersOf teamId in
    let r1 := fst (read q1 (service s)) in
    let s1 := answered (inl q1) (snd (read q1 (service s))) s in
    (exists ms, fst (Members.getTeamMembers teamId s) = Returned ms)
    /\ (forall e, reportedError r1 = Some e ->
        Members.getTeamMembers teamId s
        = (Returned [],
           noted (line_error "Error fetching team members:" [shown_error e])
                 s1))
    /\ (r1 = Resolved None None \/ r1 = Resolved (Some []) None ->
        Members.getTeamMembers teamId s = (Returned [], s1))
    /\ (forall row rows e,
          r1 = Resolved (Some (row :: rows)) None ->
          let q2 := ProfilesIn (map TeamMemberRow.user_id (row :: rows)) in
          reportedError (fst (read q2 (service s1))) = Some e ->
          Members.getTeamMembers teamId s
          = (Returned [],
             noted (line_error "Error fetching team members:"
                               [shown_error e])
                   (answered (inl q2) (snd (read q2 (service s1))) s1))).
Proof.
  intros W S teamId s q1 r1 s1.
  unfold Members.getTeamMembers, pcatch, pbind, fetch.
  subst r1 s1 q1.
  destruct (read (TeamMembersOf teamId) (service s)) as [r1 w1].
  cbn [fst snd].
  destruct r1 as [[[|row rows]|] [e1|] | e1]; cbn [reportedError];
    try (split; [|split; [|split]];
         [ eexists; reflexivity
         | intros e E; try discriminate E; injection E as <-; reflexivity
         | intros [E|E]; try discriminate E; reflexivity
         | intros ? ? ? E; discriminate E ]).
  unfold pthrow, pret, print, noted, answered.
  cbn [service asked printed teams session user loading toasts].
  destruct (read (ProfilesIn (map TeamMemberRow.user_id (row :: rows))) w1)
    as [r2 w2] eqn:E2.
  split; [|split; [|split]].
  - destruct r2 as [d2 [e2|] | e2]; eexists; reflexivity.
  - intros e E; discriminate E.
  - intros [E|E]; discriminate E.
  - intros row0 rows0 e E. injection E as <- <-. cbv zeta.
    rewrite E2. cbn [fst snd].
    destruct r2 as [d2 [e2|] | e2]; cbn [reportedError]; intros E;
      try discriminate E; injection E as <-; reflexivity.
Qed.

(** What [getTeamMembers] returns when both lookups went through. *)
Lemma getTeamMembers_merges (W : Type) (S : Service W) (teamId : jsstring)
    (s : Page W) row rows profs :
  fst (read (TeamMembersOf teamId) (service s))
  = Resolved (Some (row :: rows)) None ->
  fst (read (ProfilesIn (map TeamMemberRow.user_id (row :: rows)))
            (snd (read (TeamMembersOf teamId) (service s))))
  = Resolved profs None ->
  fst (Members.getTeamMembers teamId s)
  = Returned (map (Members.withProfile profs) (row :: rows)).
Proof.
  unfold Members.getTeamMembers, pcatch, pbind, fetch.
  destruct (read (TeamMembersOf teamId) (service s)) as [r1 w1].
  cbn [fst snd]. intros ->.
  unfold answered. cbn [service].
  destruct (read (ProfilesIn (map TeamMemberRow.user_id (row :: rows))) w1)
    as [r2 w2].
  cbn [fst]. intros ->. reflexivity.
Qed.

Lemma withProfile_sameMember profs row :
  sameMember row (Members.withProfile profs row).
Proof. unfold sameMember, Members.withProfile; cbn. tauto. Qed.

Lemma withProfile_profileFrom profs row :
  profileFrom (match profs with Some ps => ps | None => [] end) row
              (Members.withProfile profs row).
Proof.
  unfold profileFrom, Members.withProfile.
  cbn [TeamMember.profile]. split.
  - intros Hno.
    assert (Hf :
      match profs with
      | Some ps =>
          find (fun p => str_eqb (ProfileRow.id p)
                                 (TeamMemberRow.user_id row)) ps
      | None => None
      end = None).
    { destruct profs as [ps|]; [|reflexivity].
      apply find_absent. intros y I. apply not_true_iff_false. intros E.
      apply str_eqb_eq in E. exact (Hno y I E). }
    rewrite Hf. reflexivity.
  - intros before p after E Hp Hb.
    destruct profs as [ps|]; [|destruct before; discriminate E].
    assert (Hf :
      find (fun p => str_eqb (ProfileRow.id p) (TeamMemberRow.user_id row)) ps
      = Some p).
    { apply find_first. exists before, after. split; [exact E|].
      split; [apply str_eqb_eq; exact Hp|].
      intros y I. apply not_true_iff_false. intros Ey.
      apply str_eqb_eq in Ey. exact (Hb y I Ey). }
    rewrite Hf. reflexivity.
Qed.

Lemma Forall2_map_of {A C} (R : A -> C -> Prop) (f : A -> C) (l : list A) :
  (forall x, R x (f x)) -> Forall2 R l (map f l).
Proof. intros HR. induction l; cbn [map]; constructor; auto. Qed.

(** X2: when both lookups go through, the result of [getTeamMembers] has
    exactly one entry per membership row, in the order of the rows, each
    with the id, team, user, role and joining time of its row: a member
    is never dropped, whatever the profile lookup found. *)
Theorem X2_getTeamMembers_keeps_every_member :
  forall (W : Type) (S : Service W) (teamId : jsstring) (s : Page W)
         (row : TeamMemberRow.t) (rows : list TeamMemberRow.t)
         (profs : option (list ProfileRow.t)),
    fst (read (TeamMembersOf teamId) (service s))
    = Resolved (Some (row :: rows)) None ->
    fst (read (ProfilesIn (map TeamMemberRow.user_id (row :: rows)))
              (snd (read (TeamMembersOf teamId) (service s))))
    = Resolved profs None ->
    exists ms,
      fst (Members.getTeamMembers teamId s) = Returned ms
      /\ length ms = length (row :: rows)
      /\ Forall2 sameMember (row :: rows) ms.
Proof.
  intros W S teamId s row rows profs H1 H2.
  exists (map (Members.withProfile profs) (row :: rows)).
  split; [apply (@getTeamMembers_merges W S teamId s _ _ _ H1 H2)|].
  split; [apply length_map|].
  apply Forall2_map_of. intros r. apply withProfile_sameMember.
Qed.

(** X3: when both lookups go through, the profile of each entry is that
    of the first profile row whose id is the member's user id, with an
    empty or missing first name, last name or avatar turned into [null];
    a member without profile row, or a profile lookup without data, gives
    a profile of three [null]s. *)
Theorem X3_getTeamMembers_profiles :
  forall (W : Type) (S : Service W) (teamId : jsstring) (s : Page W)
         (row : TeamMemberRow.t) (rows : list TeamMemberRow.t)
         (profs : option (list ProfileRow.t)),
    fst (read (TeamMembersOf teamId) (service s))
    = Resolved (Some (row :: rows)) None ->
    fst (read (ProfilesIn (map TeamMemberRow.user_id (row :: rows)))
              (snd (read (TeamMembersOf teamId) (service s))))
    = Resolved profs None ->
    exists ms,
      fst (Members.getTeamMembers teamId s) = Returned ms
      /\ Forall2 (profileFrom (match profs with
                               | Some ps => ps
                               | None => []
                               end))
                 (row :: rows) ms.
Proof.
  intros W S teamId s row rows profs H1 H2.
  exists (map (Members.withProfile profs) (row :: rows)).
  split; [apply (@getTeamMembers_merges W S teamId s _ _ _ H1 H2)|].
  apply Forall2_map_of. intros r. apply withProfile_profileFrom.
Qed.

(** X2 on the sample service: both members of the team come back. *)
Lemma X2_getTeamMembers_keeps_every_member_witness :
  exists ms,
    fst (Members.getTeamMembers (js "team-0") (fresh_page (sample_cloud [])))
    = Returned ms
    /\ length ms = 2
    /\ Forall2 sameMember (Cloud.members (sample_cloud [])) ms.
Proof.
  exact (@X2_getTeamMembers_keeps_every_member Cloud.t Cloud.service
           (js "team-0") (fresh_page (sample_cloud [])) _ _
           (Some (Cloud.profiles (sample_cloud []))) eq_refl eq_refl).
Defined.

(** X3 on the sample service. *)
Lemma X3_getTeamMembers_profiles_witness :
  exists ms,
    fst (Members.getTeamMembers (js "team-0") (fresh_page (sample_cloud [])))
    = Returned ms
    /\ Forall2 (profileFrom (Cloud.profiles (sample_cloud [])))
               (Cloud.members (sample_cloud [])) ms.
Proof.
  exact (@X3_getTeamMembers_profiles Cloud.t Cloud.service
           (js "team-0") (fresh_page (sample_cloud [])) _ _
           (Some (Cloud.profiles (sample_cloud []))) eq_refl eq_refl).
Defined.

Example team_members_of_the_sample_team :
  fst (Members.getTeamMembers (js "team-0") (fresh_page (sample_cloud [])))
  = Returned
      [ {| TeamMember.id := js "m1"; TeamMember.team_id := js "team-0";
           TeamMember.user_id := js "u1"; TeamMember.role := admin;
           TeamMember.joined_at := js "2024-03-15";
           TeamMember.profile :=
             {| Profile.first_name := Some (js "Al");
                Profile.last_name := None;
                Profile.avatar_url := None |} |};
        {| TeamMember.id := js "m2"; TeamMember.team_id := js "team-0";
           TeamMember.user_id := js "u2"; TeamMember.role := member;
           TeamMember.joined_at := js "2024-03-16";
           TeamMember.profile := noProfile |} ].
Proof. reflexivity. Qed.

(** ** The team list of the dialog *)

(** X4: on every service, [fetchUserTeams] returns and never throws, and
    touches nothing of the page but its [teams].  When either lookup
    reports an error or is rejected, [teams] stays as it was (the error is
    only written to the console); with no membership rows [teams] becomes
    empty without a second lookup; otherwise [teams] becomes the rows of
    the team lookup, or empty when that lookup carries no data. *)
Theorem X4_fetchUserTeams_keeps_teams_on_failure :
  forall (W : Type) (S : Service W) (u : option User.t) (s : Page W),
    let q1 := MembershipsOf (option_map User.id u) in
    let r1 := fst (read q1 (service s)) in
    let w1 := snd (read q1 (service s)) in
    let out := snd (DialogEffects.fetchUserTeams u s) in
    fst (DialogEffects.fetchUserTeams u s) = Returned tt
    /\ session out = session s /\ user out = user s
    /\ loading out = loading s /\ toasts out = toasts s
    /\ (forall e, reportedError r1 = Some e ->
        teams out = teams s /\ asked out = asked s ++ [inl q1])
    /\ (r1 = Resolved None None \/ r1 = Resolved (Some []) None ->
        teams out = [] /\ asked out = asked s ++ [inl q1])
    /\ (forall row rows,
          r1 = Resolved (Some (row :: rows)) None ->
          let q2 := TeamOptionsIn (map Membership.team_id (row :: rows)) in
          let r2 := fst (read q2 w1) in
          asked out = asked s ++ [inl q1; inl q2]
          /\ (forall e, reportedError r2 = Some e -> teams out = teams s)
          /\ (forall data, r2 = Resolved data None ->
              teams out = match data with Some ts => ts | None => [] end)).
Proof.
  intros W S u s q1 r1 w1 out. subst out r1 w1 q1.
  unfold DialogEffects.fetchUserTeams, pcatch, pbind, fetch.
  destruct (read (MembershipsOf (option_map User.id u)) (service s))
    as [r1 w1].
  cbn [fst snd].
  destruct r1 as [[[|row rows]|] [e1|] | e1]; cbn [reportedError];
    try (repeat (split; [reflexivity|]);
         split; [|split];
         [ intros e E; try discriminate E; split; reflexivity
         | intros [E|E]; try discriminate E; split; reflexivity
         | intros ? ? E; discriminate E ]).
  unfold pthrow, pret, print, setTeams, answered.
  cbn [service asked printed teams session user loading toasts].
  cbn [Row].
  match goal with
  | |- context [read ?q w1] => destruct (read q w1) as [r2 w2] eqn:E2
  end.
  assert (Hq : forall l (a b : Query + AuthCall), (l ++ [a]) ++ [b] = l ++ [a; b])
    by (intros; rewrite <- app_assoc; reflexivity).
  destruct r2 as [d2 [e2|] | e2]; cbn in *;
    (repeat (split; [reflexivity|]);
     split; [|split];
     [ intros e E; discriminate E
     | intros [E|E]; discriminate E
     | intros row0 rows0 E; injection E as <- <-; rewrite E2; cbn;
       split; [apply Hq|];
       split;
       [ intros e E; try discriminate E; reflexivity
       | intros data E; try discriminate E;
         try (injection E as <-); reflexivity ] ]).
Qed.

(** ** The authentication provider *)

Section Provider.
Context {W : Type} {S : Service W}.

(** [signIn] and [signOut] leave the session and the user of the provider
    alone, and leave [loading] off. *)
Lemma signIn_frame (email password : jsstring) (s : Page W) :
  let out := snd (Auth.signIn email password s) in
  session out = session s /\ user out = user s /\ loading out = false.
Proof.
  unfold Auth.signIn, pfinally, pcatch, pbind, call, setLoading, print.
  cbn [service asked printed teams session user loading toasts].
  destruct (auth (SignInWithPassword email password) (service s)) as [r w].
  destruct r as [[[u x]|] [m|] | e]; cbn; auto.
Qed.

Lemma signOut_frame (s : Page W) :
  let out := snd (Auth.signOut s) in
  session out = session s /\ user out = user s /\ loading out = false.
Proof.
  unfold Auth.signOut, pfinally, pcatch, pbind, call, setLoading, print.
  cbn [service asked printed teams session user loading toasts].
  destruct (auth SignOut (service s)) as [r w].
  destruct r as [d [m|] | e]; cbn; auto.
Qed.

Lemma getInitialSession_frame (s : Page W) :
  let out := snd (Auth.getInitialSession s) in
  loading out = false
  /\ (user s = option_map AuthSession.user (session s) ->
      user out = option_map AuthSession.user (session out)).
Proof.
  unfold Auth.getInitialSession, pfinally, pcatch, pbind, call, setLoading,
    print.
  cbn [service asked printed teams session user loading toasts].
  destruct (auth GetSession (service s)) as [r w].
  destruct r as [[x|] m | e]; cbn; auto.
Qed.

Lemma step_keeps_user_of_session (e : Auth.Event) (s : Page W) :
  user s = option_map AuthSession.user (session s) ->
  user (Auth.step e s) = option_map AuthSession.user (session (Auth.step e s))
  /\ loading (Auth.step e s) = false.
Proof.
  intros Inv. destruct e as [|event x|email password|]; cbn [Auth.step].
  - destruct (getInitialSession_frame s) as [Hl Hu]. auto.
  - split; reflexivity.
  - destruct (signIn_frame email password s) as [Hs [Hu Hl]].
    cbv zeta in *. rewrite Hs, Hu. auto.
  - destruct (signOut_frame s) as [Hs [Hu Hl]].
    cbv zeta in *. rewrite Hs, Hu. auto.
Qed.

End Provider.

(** X5: on every service, [signIn] returns a response and never throws;
    it sends exactly the sign-in call, leaves [loading] off and does not
    touch the session or the user of the provider.  A reported error
    comes back in the response with one error toast, whose text is the
    error's message or ['Failed to sign in'] when the message is empty; a
    success comes back as it is with one success toast; a rejection, or a
    reply with neither data nor error, comes back as a response holding
    the error and no user or session, without any toast. *)
Theorem X5_signIn_never_throws :
  forall (W : Type) (S : Service W) (email password : jsstring)
         (s : Page W),
    let c := SignInWithPassword email password in
    let out := snd (Auth.signIn email password s) in
    loading out = false
    /\ session out = session s /\ user out = user s
    /\ asked out = asked s ++ [inr c]
    /\ match fst (auth c (service s)) with
       | AuthResolved data (Some m) =>
           fst (Auth.signIn email password s)
           = Returned {| AuthResponse.data := data;
                         AuthResponse.error := Some (RemoteError m) |}
           /\ toasts out
              = toasts s
                ++ [toast_error (Auth.messageOr m (js "Failed to sign in"))]
       | AuthResolved (Some d) None =>
           fst (Auth.signIn email password s)
           = Returned {| AuthResponse.data := Some d;
                         AuthResponse.error := None |}
           /\ toasts out
              = toasts s ++ [toast_success (js "Successfully logged in!")]
       | AuthResolved None None =>
           fst (Auth.signIn email password s)
           = Returned {| AuthResponse.data := Some (None, None);
                         AuthResponse.error := Some TypeError |}
           /\ toasts out = toasts s
       | AuthRejected e =>
           fst (Auth.signIn email password s)
           = Returned {| AuthResponse.data := Some (None, None);
                         AuthResponse.error := Some e |}
           /\ toasts out = toasts s
       end.
Proof.
  intros W S email password s c out. subst out c.
  unfold Auth.signIn, pfinally, pcatch, pbind, call, setLoading, print.
  cbn [service asked printed teams session user loading toasts].
  destruct (auth (SignInWithPassword email password) (service s)) as [r w].
  destruct r as [[[u x]|] [m|] | e]; cbn; auto 10.
Qed.

(** X6: on every service, [signOut] sends exactly the sign-out call and
    leaves [loading] off whether it returns or throws.  It throws exactly
    when the call reports an error or is rejected, and then throws that
    error to its caller (after one error toast for a reported error); it
    shows the success toast only when it returns.  It does not clear the
    session or the user of the provider itself. *)
Theorem X6_signOut_rethrows_and_stops_loading :
  forall (W : Type) (S : Service W) (s : Page W),
    let out := snd (Auth.signOut s) in
    loading out = false
    /\ session out = session s /\ user out = user s
    /\ asked out = asked s ++ [inr SignOut]
    /\ match fst (auth SignOut (service s)) with
       | AuthResolved _ (Some m) =>
           fst (Auth.signOut s) = Threw (RemoteError m)
           /\ toasts out
              = toasts s
                ++ [toast_error (Auth.messageOr m (js "Failed to sign out"))]
       | AuthResolved _ None =>
           fst (Auth.signOut s) = Returned tt
           /\ toasts out
              = toasts s ++ [toast_success (js "Successfully logged out")]
       | AuthRejected e =>
           fst (Auth.signOut s) = Threw e /\ toasts out = toasts s
       end.
Proof.
  intros W S s out. subst out.
  unfold Auth.signOut, pfinally, pcatch, pbind, call, setLoading, print.
  cbn [service asked printed teams session user loading toasts].
  destruct (auth SignOut (service s)) as [r w].
  destruct r as [d [m|] | e]; cbn; auto 10.
Qed.

(** X7: whatever happens to the provider (mounting, auth state changes,
    sign-ins, sign-outs, in any order and with any answers of the
    service), its [user] stays the user of its [session], and after at
    least one event [loading] is off. *)
Theorem X7_user_is_the_user_of_the_session :
  forall (W : Type) (S : Service W) (events : list Auth.Event)
         (s : Page W),
    user s = option_map AuthSession.user (session s) ->
    let out := Auth.run events s in
    user out = option_map AuthSession.user (session out)
    /\ (events <> [] -> loading out = false).
Proof.
  intros W S events.
  induction events as [|e events IH] using rev_ind; intros s Inv out.
  - split; [exact Inv|]. intros Hne; contradiction.
  - subst out. unfold Auth.run in *. rewrite fold_left_app. cbn [fold_left].
    destruct (IH s Inv) as [Hu _].
    destruct (step_keeps_user_of_session e _ Hu) as [Hu' Hl].
    split; [exact Hu'|]. intros _. exact Hl.
Qed.

(** X7 on the sample service: mount, sign in, be told of the new session,
    sign out. *)
Lemma X7_user_is_the_user_of_the_session_witness :
  user (fresh_page (sample_cloud []))
  = option_map AuthSession.user (session (fresh_page (sample_cloud [])))
  /\ loading
       (Auth.run
          [Auth.Mounted;
           Auth.SignedIn (js "al@example.org") (js "secret");
           Auth.Changed (js "SIGNED_IN")
             (Some {| AuthSession.user := {| User.id := js "u1" |};
                      AuthSession.access_token := js "token" |});
           Auth.SignedOut]
          (fresh_page (sample_cloud [])))
     = false.
Proof.
  split; [reflexivity|].
  refine (proj2 (@X7_user_is_the_user_of_the_session Cloud.t Cloud.service
                   _ (fresh_page (sample_cloud [])) eq_refl) _).
  discriminate.
Defined.

Example signIn_with_a_wrong_password :
  fst (Auth.signIn (js "al@example.org") (js "guess")
         (fresh_page (sample_cloud [])))
  = Returned {| AuthResponse.data := Some (None, None);
                AuthResponse.error :=
                  Some (RemoteError (js "Invalid login credentials")) |}
  /\ toasts (snd (Auth.signIn (js "al@example.org") (js "guess")
                    (fresh_page (sample_cloud []))))
     = [toast_error (js "Invalid login credentials")].
Proof. split; reflexivity. Qed.

(** ** Teams on the store *)

(** A read leaves the two tables of the store as they were. *)
Lemma store_read_keeps_tables (r : Request) (st : Store.t) :
  (exists u, r = SelectMemberships u) \/ (exists ids, r = SelectTeams ids) ->
  Store.teams (snd (Store.answer r st)) = Store.teams st
  /\ Store.team_members (snd (Store.answer r st)) = Store.team_members st.
Proof.
  intros [[u ->]|[ids ->]]; unfold Store.answer;
    destruct (Store.faults st) as [|[|e|e] fs]; cbn; auto.
Qed.

(** The requests and the final backend state of [getTeams]. *)
Lemma getTeams_trace (W : Type) (B : Backend W) (userId : jsstring)
    (s : Session W) :
  let q1 := SelectMemberships userId in
  let w1 := snd (serve q1 (world s)) in
  let out := snd (Api.getTeams userId s) in
  (sent out = sent s ++ [q1] /\ world out = w1)
  \/ (exists ids,
        sent out = sent s ++ [q1; SelectTeams ids]
        /\ world out = snd (serve (SelectTeams ids) w1)).
Proof.
  cbv zeta.
  unfold Api.getTeams, tryCatch, bind, await, throw, ret, write.
  cbn [world sent console].
  destruct (serve (SelectMemberships userId) (world s)) as [r1 w1].
  cbn [fst snd].
  destruct r1 as [[[|row rows]|] [e1|] | e1]; try (cbn; auto; fail).
  cbn [world sent console].
  right. exists (map Membership.team_id (row :: rows)).
  destruct (serve (SelectTeams (map Membership.team_id (row :: rows))) w1)
    as [r2 w2].
  destruct r2 as [d2 [e2|] | e2]; cbn; rewrite <- app_assoc; auto.
Qed.

(** X8: [getTeams] only reads.  On every backend it sends the membership
    lookup and at most one team lookup after it, never an insertion or an
    invocation; on the store, whatever the faults, the [teams] and
    [team_members] tables are afterwards what they were before. *)
Theorem X8_getTeams_only_reads :
  (forall (W : Type) (B : Backend W) (userId : jsstring) (s : Session W),
     sent (snd (Api.getTeams userId s)) = sent s ++ [SelectMemberships userId]
     \/ exists ids,
          sent (snd (Api.getTeams userId s))
          = sent s ++ [SelectMemberships userId; SelectTeams ids])
  /\ (forall (userId : jsstring) (s : Session Store.t),
        Store.teams (world (snd (Api.getTeams userId s)))
        = Store.teams (world s)
        /\ Store.team_members (world (snd (Api.getTeams userId s)))
           = Store.team_members (world s)).
Proof.
  split.
  - intros W B userId s.
    destruct (getTeams_trace B userId s) as [[Hs _]|[ids [Hs _]]]; eauto.
  - intros userId s.
    destruct (getTeams_trace Store.backend userId s)
      as [[_ Hw]|[ids [_ Hw]]]; rewrite Hw; cbn [serve Store.backend].
    + apply store_read_keeps_tables; eauto.
    + destruct (@store_read_keeps_tables (SelectTeams ids)
                  (snd (Store.answer (SelectMemberships userId) (world s))))
        as [Ht Hm]; [eauto|].
      destruct (@store_read_keeps_tables (SelectMemberships userId)
                  (world s)) as [Ht' Hm']; [eauto|].
      rewrite Ht, Hm. auto.
Qed.

(** On a store without faults ahead, [getTeams] returns the teams in
    which the user has a membership row. *)
Lemma getTeams_on_store (userId : jsstring) (st : Store.t) :
  Store.faults st = [] ->
  fst (Api.getTeams userId (start st)) = Returned (teamsOfUser userId st).
Proof.
  intros Hf. unfold Api.getTeams, tryCatch, bind, await, start.
  cbn [world sent console serve Store.backend].
  unfold Store.answer at 1. rewrite Hf. cbn [Store.perform].
  unfold teamsOfUser.
  destruct (filter (fun r => str_eqb (TeamMemberRow.user_id r) userId)
                   (Store.team_members st)) as [|row rows] eqn:Hrows.
  - cbn. induction (Store.teams st) as [|tm l IH]; cbn; auto.
  - cbn [map]. cbn [world]. unfold Store.answer. rewrite Hf.
    cbn [Store.perform]. cbn [map Membership.team_id]. cbn.
    rewrite map_map. cbn [Membership.team_id]. reflexivity.
Qed.

(** What [createTeam] does on a store whose next two requests go
    through. *)
Lemma createTeam_on_store_ok (params : CreateTeamParams.t) (st : Store.t) :
  (forall f, In f (firstn 2 (Store.faults st)) -> f = Pass) ->
  let team := storedTeam st (teamRowOf params) in
  let final := world (snd (Api.createTeam params (start st))) in
  fst (Api.createTeam params (start st)) = Returned team
  /\ Store.teams final = Store.teams st ++ [team]
  /\ Store.team_members final
     = Store.team_members st ++ [storedCreator st params team]
  /\ Store.faults final = skipn 2 (Store.faults st).
Proof.
  intros Hf team final. subst team final.
  unfold Api.createTeam. rewrite teamRowOf_eq.
  destruct st as [ts ms n u c fs]. cbn [Store.faults] in Hf.
  destruct fs as [|f1 [|f2 fs]].
  - cbn. auto.
  - rewrite (Hf f1) by (cbn; auto). cbn. auto.
  - rewrite (Hf f1), (Hf f2) by (cbn; auto). cbn. auto.
Qed.

(** X9: on a store that lets the next two requests through, [createTeam]
    returns the team the store made of the given name, description and
    creator, and the store has gained exactly that team row and one
    membership row that makes the creator an [admin] of it. *)
Theorem X9_createTeam_adds_team_and_admin :
  forall (params : CreateTeamParams.t) (st : Store.t),
    (forall f, In f (firstn 2 (Store.faults st)) -> f = Pass) ->
    let team := storedTeam st (teamRowOf params) in
    let final := world (snd (Api.createTeam params (start st))) in
    fst (Api.createTeam params (start st)) = Returned team
    /\ Team.name team = CreateTeamParams.name params
    /\ Team.created_by team = CreateTeamParams.created_by params
    /\ Store.teams final = Store.teams st ++ [team]
    /\ Store.team_members final
       = Store.team_members st ++ [storedCreator st params team]
    /\ Store.members_of (Team.id team) final
       = Store.members_of (Team.id team) st ++ [storedCreator st params team].
Proof.
  intros params st Hf team final.
  destruct (createTeam_on_store_ok params st Hf) as (Hr & Ht & Hm & _).
  fold team in Hr, Ht, Hm. fold final in Ht, Hm.
  repeat (split; [first [exact Hr | exact Ht | exact Hm | reflexivity]|]).
  unfold Store.members_of. rewrite Hm, filter_app. cbn [filter].
  cbn [storedCreator TeamMemberRow.team_id]. rewrite str_eqb_refl.
  reflexivity.
Qed.

Lemma X9_createTeam_adds_team_and_admin_witness :
  fst (Api.createTeam sample_params (start (empty_store [Pass])))
  = Returned (storedTeam (empty_store [Pass]) (teamRowOf sample_params))
  /\ map TeamMemberRow.user_id
       (Store.team_members
          (world (snd (Api.createTeam sample_params
                         (start (empty_store [Pass]))))))
     = [js "u1"].
Proof.
  assert (Hf : forall f, In f (firstn 2 (Store.faults (empty_store [Pass])))
                         -> f = Pass).
  { intros f [<-|[]]. reflexivity. }
  destruct (@X9_createTeam_adds_team_and_admin sample_params
              (empty_store [Pass]) Hf) as (Hr & _ & _ & _ & Hm & _).
  split; [exact Hr|]. rewrite Hm. reflexivity.
Defined.

(** X10: creating a team and then listing the creator's teams, on a store
    without faults, gives a list that holds the team just created: it is
    the list of the creator's teams before, followed by the new team. *)
Theorem X10_created_team_is_listed :
  forall (params : CreateTeamParams.t) (st : Store.t),
    Store.faults st = [] ->
    let team := storedTeam st (teamRowOf params) in
    let final := world (snd (Api.createTeam params (start st))) in
    exists listed,
      fst (Api.getTeams (CreateTeamParams.created_by params) (start final))
      = Returned listed
      /\ In team listed
      /\ listed = teamsOfUser (CreateTeamParams.created_by params) final.
Proof.
  intros params st Hf team final.
  assert (Hp : forall f, In f (firstn 2 (Store.faults st)) -> f = Pass)
    by (rewrite Hf; intros f []).
  destruct (createTeam_on_store_ok params st Hp) as (_ & Ht & Hm & Hff).
  fold team in Ht, Hm. fold final in Ht, Hm, Hff.
  rewrite Hf in Hff. cbn in Hff.
  exists (teamsOfUser (CreateTeamParams.created_by params) final).
  split; [apply getTeams_on_store; exact Hff|]. split; [|reflexivity].
  unfold teamsOfUser. rewrite Ht, Hm. apply filter_In. split.
  - apply in_or_app. right. left. reflexivity.
  - apply existsb_exists. exists (Team.id team). split.
    + rewrite filter_app, map_app. apply in_or_app. right.
      cbn [filter storedCreator TeamMemberRow.user_id].
      rewrite str_eqb_refl. left. reflexivity.
    + apply str_eqb_refl.
Qed.

Lemma X10_created_team_is_listed_witness :
  exists listed,
    fst (Api.getTeams (js "u1")
           (start (world (snd (Api.createTeam sample_params
                                 (start (empty_store [])))))))
    = Returned listed
    /\ In (storedTeam (empty_store []) (teamRowOf sample_params)) listed.
Proof.
  destruct (@X10_created_team_is_listed sample_params (empty_store [])
              eq_refl) as (listed & Hl & Hin & _).
  exists listed. split; [exact Hl|exact Hin].
Defined.

(** X11: on every backend, a team insertion that resolves with neither
    data nor error makes [createTeam] throw a [TypeError] to its caller;
    the membership insertion is then never sent. *)
Theorem X11_createTeam_without_data :
  forall (W : Type) (B : Backend W) (params : CreateTeamParams.t)
         (s : Session W),
    let q1 := InsertTeam (teamRowOf params) in
    fst (serve q1 (world s)) = Resolved None None ->
    Api.createTeam params s
    = (Threw TypeError,
       logged (console_error "Error creating team:" TypeError)
              (after q1 (snd (serve q1 (world s))) s)).
Proof.
  intros W B params s q1. subst q1.
  unfold Api.createTeam, tryCatch, bind, await. rewrite teamRowOf_eq.
  destruct (serve (InsertTeam (teamRowOf params)) (world s)) as [r1 w1].
  cbn [fst snd]. intros ->. reflexivity.
Qed.

Lemma X11_createTeam_without_data_witness :
  fst (Api.createTeam (B := silent_backend) sample_params (start tt))
  = Threw TypeError
  /\ sent (snd (Api.createTeam (B := silent_backend) sample_params
                  (start tt)))
     = [InsertTeam (teamRowOf sample_params)].
Proof.
  rewrite (@X11_createTeam_without_data unit silent_backend sample_params
             (start tt) eq_refl).
  split; reflexivity.
Defined.

(** ** Dates in storage, the other way round *)

Lemma DayFromYear_mono (a b : Z) :
  (a <= b)%Z -> (Cal.DayFromYear a <= Cal.DayFromYear b)%Z.
Proof.
  unfold Cal.DayFromYear. intros Hab. Z.div_mod_to_equations. lia.
Qed.

(** A date of the calendar lies within its year. *)
Lemma date_within_year (y m d : Z) :
  (1 <= m <= 12)%Z -> (1 <= d <= Cal.daysInMonth y m)%Z ->
  (Cal.DayFromYear y <= Cal.DayFromYear y + daysBeforeMonth y m + d - 1
   < Cal.DayFromYear (y + 1))%Z.
Proof.
  intros Hm. unfold Cal.DayFromYear, daysBeforeMonth, Cal.daysInMonth.
  destruct (isLeap_cases y) as [ [ -> Hl ] | [ -> Hl ] ];
    month_by_month Hm m; fold_month_table;
    cbn [Z.eqb Pos.eqb orb]; intros Hd;
    Z.div_mod_to_equations; lia.
Qed.

(** Within one year, the day of the year determines month and day. *)
Lemma day_of_year_inj (y m d m' d' : Z) :
  (1 <= m <= 12)%Z -> (1 <= d <= Cal.daysInMonth y m)%Z ->
  (1 <= m' <= 12)%Z -> (1 <= d' <= Cal.daysInMonth y m')%Z ->
  (daysBeforeMonth y m + d = daysBeforeMonth y m' + d')%Z ->
  m = m' /\ d = d'.
Proof.
  intros Hm Hd Hm' Hd'. revert Hd Hd'.
  unfold daysBeforeMonth, Cal.daysInMonth.
  destruct (Cal.isLeap y);
    month_by_month Hm m; month_by_month Hm' m'; fold_month_table;
    cbn [Z.eqb Pos.eqb orb]; intros Hd Hd' E; lia.
Qed.

(** The date computed for the day number of a date is that date. *)
Lemma civilFromDays_daysFromCivil (y m d : Z) :
  (1 <= m <= 12)%Z -> (1 <= d <= Cal.daysInMonth y m)%Z ->
  Cal.civilFromDays (Cal.daysFromCivil y m d) = (y, m, d).
Proof.
  intros Hm Hd.
  destruct (Cal.civilFromDays (Cal.daysFromCivil y m d)) as [[y' m'] d']
    eqn:E.
  destruct (civilFromDays_sound E) as [Hm' [Hd' _]].
  destruct (civilFromDays_year E) as [Hz Hy'].
  rewrite (daysFromCivil_spec y d Hm) in Hz, Hy'.
  pose proof (date_within_year y Hm Hd) as Hy.
  assert (Eyy : y' = y).
  { destruct (Z.lt_trichotomy y y') as [Hlt|[Heq|Hgt]]; [|auto|].
    - pose proof (@DayFromYear_mono (y + 1) y' ltac:(lia)). lia.
    - pose proof (@DayFromYear_mono (y' + 1) y ltac:(lia)). lia. }
  subst y'.
  destruct (@day_of_year_inj y m d m' d' Hm Hd Hm' Hd' ltac:(lia))
    as [-> ->].
  reflexivity.
Qed.

Lemma printed4_all :
  forall n, (0 <= n < 10000)%Z -> printed4Ok n = true.
Proof.
  assert (Hall : allFrom printed4Ok 0 (Z.to_nat 10000) = true)
    by (vm_compute; reflexivity).
  intros n Hn. apply (@allFrom_spec _ _ _ Hall). rewrite Z2Nat.id; lia.
Qed.

Lemma printed2_all :
  forall n, (0 <= n < 100)%Z -> printed2Ok n = true.
Proof.
  assert (Hall : allFrom printed2Ok 0 (Z.to_nat 100) = true)
    by (vm_compute; reflexivity).
  intros n Hn. apply (@allFrom_spec _ _ _ Hall). rewrite Z2Nat.id; lia.
Qed.

Lemma parseDigits_inv (s : jsstring) (k : N) :
  parseDigits s = Some k ->
  forallb isDigit s = true /\ k = decimalValue s.
Proof.
  unfold parseDigits. destruct s as [|c s]; [discriminate|].
  destruct (forallb isDigit (c :: s)) eqn:Hd; [|discriminate].
  intros E. injection E as <-. split; [reflexivity|].
  unfold decimalValue.
  pose proof (@leadingDigits_run (c :: s) [] Hd eq_refl) as Hl.
  rewrite app_nil_r in Hl.
  change (mathInt (leadingDigits (c :: s))
          = mathInt (map (fun c => (c - 48)%N) (c :: s))).
  rewrite Hl. reflexivity.
Qed.

(** Four digits that read as a number are what that number prints as. *)
Lemma print_of_four_digits (a b c d k : N) :
  parseDigits [a; b; c; d] = Some k ->
  DateFns.addLeadingZeros (Z.of_N k) 4 = [a; b; c; d]
  /\ (0 <= Z.of_N k < 10000)%Z.
Proof.
  intros P. destruct (parseDigits_inv _ P) as [Hd ->].
  cbn [forallb] in Hd. rewrite !andb_true_iff in Hd.
  destruct Hd as (Ha & Hb & Hc & Hd & _).
  apply isDigit_spec in Ha, Hb, Hc, Hd.
  unfold decimalValue, mathInt. cbn [map fold_left].
  set (n := Z.of_N (10 * (10 * (10 * (10 * 0 + (a - 48)) + (b - 48))
                          + (c - 48)) + (d - 48))).
  assert (Hn : (n = 1000 * (Z.of_N a - 48) + 100 * (Z.of_N b - 48)
                    + 10 * (Z.of_N c - 48) + (Z.of_N d - 48))%Z)
    by (subst n; lia).
  assert (Hr : (0 <= n < 10000)%Z) by lia.
  split; [|exact Hr].
  pose proof (printed4_all Hr) as Hp. unfold printed4Ok in Hp.
  apply str_eqb_eq in Hp. rewrite Hp.
  assert (E1 : (n / 1000 = Z.of_N a - 48)%Z)
    by (Z.div_mod_to_equations; lia).
  assert (E2 : ((n / 100) mod 10 = Z.of_N b - 48)%Z)
    by (Z.div_mod_to_equations; lia).
  assert (E3 : ((n / 10) mod 10 = Z.of_N c - 48)%Z)
    by (Z.div_mod_to_equations; lia).
  assert (E4 : (n mod 10 = Z.of_N d - 48)%Z)
    by (Z.div_mod_to_equations; lia).
  rewrite E1, E2, E3, E4.
  repeat f_equal; lia.
Qed.

Lemma print_of_two_digits (a b k : N) :
  parseDigits [a; b] = Some k ->
  DateFns.addLeadingZeros (Z.of_N k) 2 = [a; b].
Proof.
  intros P. destruct (parseDigits_inv _ P) as [Hd ->].
  cbn [forallb] in Hd. rewrite !andb_true_iff in Hd.
  destruct Hd as (Ha & Hb & _).
  apply isDigit_spec in Ha, Hb.
  unfold decimalValue, mathInt. cbn [map fold_left].
  set (n := Z.of_N (10 * (10 * 0 + (a - 48)) + (b - 48))).
  assert (Hn : (n = 10 * (Z.of_N a - 48) + (Z.of_N b - 48))%Z)
    by (subst n; lia).
  assert (Hr : (0 <= n < 100)%Z) by lia.
  pose proof (printed2_all Hr) as Hp. unfold printed2Ok in Hp.
  apply str_eqb_eq in Hp. rewrite Hp.
  assert (E1 : (n / 10 = Z.of_N a - 48)%Z) by (Z.div_mod_to_equations; lia).
  assert (E2 : (n mod 10 = Z.of_N b - 48)%Z)
    by (Z.div_mod_to_equations; lia).
  rewrite E1, E2.
  repeat f_equal; lia.
Qed.

(** A date-only text is ten code units: four digits, a hyphen, two
    digits, a hyphen, two digits. *)
Lemma parseDateOnly_inv (text : jsstring) (y m d : Z) :
  parseDateOnly text = Some (y, m, d) ->
  exists y1 y2 y3 y4 m1 m2 d1 d2 ky km kd,
    text = [y1; y2; y3; y4; hyphen; m1; m2; hyphen; d1; d2]
    /\ parseDigits [y1; y2; y3; y4] = Some ky
    /\ parseDigits [m1; m2] = Some km
    /\ parseDigits [d1; d2] = Some kd
    /\ y = Z.of_N ky /\ m = Z.of_N km /\ d = Z.of_N kd.
Proof.
  unfold parseDateOnly.
  destruct text as [|y1 [|y2 [|y3 [|y4 [|h1 [|m1 [|m2 [|h2 [|d1 [|d2 [|? ?]]]]]]]]]]];
    try discriminate.
  destruct (h1 =? hyphen)%N eqn:H1; [|discriminate].
  destruct (h2 =? hyphen)%N eqn:H2; [|discriminate].
  apply N.eqb_eq in H1, H2. subst h1 h2. cbn [andb].
  destruct (parseDigits [y1; y2; y3; y4]) as [ky|] eqn:Py; [|discriminate].
  destruct (parseDigits [m1; m2]) as [km|] eqn:Pm; [|discriminate].
  destruct (parseDigits [d1; d2]) as [kd|] eqn:Pd; [|discriminate].
  intros E. injection E as <- <- <-.
  exists y1, y2, y3, y4, m1, m2, d1, d2, ky, km, kd. auto 10.
Qed.

(** X12: a stored text that is the date-only form of a calendar date of
    year 1 or later is read by [parseDateFromSupabase] as a date which
    [formatDateForSupabase] writes back as the very same text, on a host
    whose local time is UTC or ahead of it at that midnight. *)
Theorem X12_stored_text_survives_a_cycle :
  forall (H : Host) (text : jsstring) (y m d : Z),
    parseDateOnly text = Some (y, m, d) ->
    (1 <= y)%Z -> (1 <= m <= 12)%Z -> (1 <= d <= Cal.daysInMonth y m)%Z ->
    (0 <= LocalTZA (Cal.daysFromCivil y m d * Cal.msPerDay)
     < Cal.msPerDay)%Z ->
    exists date,
      Api.parseDateFromSupabase (Some text) = Some date
      /\ date = DateAt (Cal.daysFromCivil y m d * Cal.msPerDay)
      /\ Api.formatDateForSupabase date = Returned text.
Proof.
  intros H text y m d P Hy Hm Hd Hoff.
  destruct (parseDateOnly_inv _ P)
    as (y1 & y2 & y3 & y4 & m1 & m2 & d1 & d2 & ky & km & kd
        & -> & Py & Pm & Pd & -> & -> & ->).
  exists (DateAt (Cal.daysFromCivil (Z.of_N ky) (Z.of_N km) (Z.of_N kd)
                  * Cal.msPerDay)).
  split; [|split; [reflexivity|]].
  - unfold Api.parseDateFromSupabase.
    change [y1; y2; y3; y4; hyphen; m1; m2; hyphen; d1; d2]
      with ([y1; y2; y3; y4] ++ [hyphen] ++ [m1; m2] ++ [hyphen] ++ [d1; d2]).
    rewrite (@newDate_date_only H [y1; y2; y3; y4] [m1; m2] [d1; d2]
               _ _ _ eq_refl eq_refl eq_refl Py Pm Pd Hm Hd).
    reflexivity.
  - unfold Api.formatDateForSupabase, DateFns.format_yyyy_MM_dd, localYMD,
      LocalTime.
    rewrite Day_after_midnight by exact Hoff.
    rewrite civilFromDays_daysFromCivil by assumption.
    unfold DateFns.eraYear.
    destruct (Z.ltb_spec 0 (Z.of_N ky)); [|lia].
    destruct (print_of_four_digits _ _ _ _ Py) as [-> _].
    rewrite (print_of_two_digits _ _ Pm), (print_of_two_digits _ _ Pd).
    reflexivity.
Qed.

Lemma X12_stored_text_survives_a_cycle_witness :
  exists date,
    Api.parseDateFromSupabase (H := utc_host) (Some (js "2024-02-29"))
    = Some date
    /\ Api.formatDateForSupabase (H := utc_host) date
       = Returned (js "2024-02-29").
Proof.
  destruct (@X12_stored_text_survives_a_cycle utc_host (js "2024-02-29")
              2024 2 29 eq_refl ltac:(lia) ltac:(lia)
              ltac:(vm_compute; split; discriminate)
              ltac:(vm_compute; split; [discriminate|reflexivity]))
    as (date & Hp & _ & Hf).
  exists date. split; [exact Hp|exact Hf].
Defined.

(** One cycle through storage gives midnight UTC of the local day. *)
Lemma reload_is_utc_midnight (H : Host) (t y m d : Z) :
  localYMD t = (y, m, d) ->
  (1 <= y <= 9999)%Z ->
  reload (DateAt t) = Some (DateAt (Cal.Day (LocalTime t) * Cal.msPerDay)).
Proof.
  intros Hymd Hy. unfold localYMD in Hymd.
  destruct (civilFromDays_sound Hymd) as [Hm [Hd Hz]].
  pose proof (daysInMonth_le_31 y m) as H31.
  assert (By : (0 <= y < 10000)%Z) by lia.
  assert (Bm : (0 <= m < 100)%Z) by lia.
  assert (Bd : (0 <= d < 100)%Z) by lia.
  destruct (@paddedOk_inv 4 y (@padded4_all y By)) as [ky [Ly [Py Ey]]].
  destruct (@paddedOk_inv 2 m (@padded2_all m Bm)) as [km [Lm [Pm Em]]].
  destruct (@paddedOk_inv 2 d (@padded2_all d Bd)) as [kd [Ld [Pd Ed]]].
  unfold reload, Api.formatDateForSupabase, DateFns.format_yyyy_MM_dd,
    localYMD.
  rewrite Hymd. unfold DateFns.eraYear.
  destruct (Z.ltb_spec 0 y); [|lia].
  assert (Hnew :
    newDate (DateFns.addLeadingZeros y 4 ++ [hyphen]
             ++ DateFns.addLeadingZeros m 2 ++ [hyphen]
             ++ DateFns.addLeadingZeros d 2)
    = DateAt (Cal.Day (LocalTime t) * Cal.msPerDay)).
  { rewrite (@newDate_date_only H _ _ _ _ _ _ Ly Lm Ld Py Pm Pd);
      rewrite ?Ey, ?Em, ?Ed; auto.
    rewrite Hz. reflexivity. }
  unfold Api.parseDateFromSupabase.
  destruct (DateFns.addLeadingZeros y 4) as [|c r] eqn:Ety;
    [discriminate Ly|].
  cbn [app] in *. rewrite Hnew. reflexivity.
Qed.

(** X13: where local time is UTC or ahead of it, the date that comes out
    of a cycle through storage is stable: sending it through storage
    again gives the same date, however often. *)
Theorem X13_reloaded_date_is_stable_east_of_utc :
  forall (H : Host) (t y m d : Z),
    localYMD t = (y, m, d) ->
    (1 <= y <= 9999)%Z ->
    let t' := (Cal.Day (LocalTime t) * Cal.msPerDay)%Z in
    (0 <= LocalTZA t' < Cal.msPerDay)%Z ->
    reload (DateAt t) = Some (DateAt t')
    /\ reload (DateAt t') = Some (DateAt t').
Proof.
  intros H t y m d Hymd Hy t' Hoff.
  split; [apply (reload_is_utc_midnight Hymd Hy)|].
  assert (Hl : localYMD t' = (y, m, d)).
  { unfold localYMD, LocalTime. subst t'.
    rewrite Day_after_midnight by exact Hoff. exact Hymd. }
  rewrite (reload_is_utc_midnight Hl Hy).
  unfold LocalTime. subst t'. rewrite Day_after_midnight by exact Hoff.
  reflexivity.
Qed.

Lemma X13_reloaded_date_is_stable_east_of_utc_witness :
  reload (H := utc_host) (DateAt 1710491696000)
  = Some (DateAt 1710460800000)
  /\ reload (H := utc_host) (DateAt 1710460800000)
     = Some (DateAt 1710460800000).
Proof.
  exact (@X13_reloaded_date_is_stable_east_of_utc utc_host 1710491696000
           2024 3 15 ltac:(vm_compute; reflexivity) ltac:(lia)
           ltac:(vm_compute; split; [discriminate|reflexivity])).
Defined.

(** X14: where local time is behind UTC, a date that was read from
    storage (midnight UTC of a day) comes out of the next cycle through
    storage one whole day earlier, as long as the day before is of a year
    between 1 and 9999: every save and load moves the date back a day. *)
Theorem X14_reloaded_date_drifts_west_of_utc :
  forall (H : Host) (z y m d : Z),
    Cal.civilFromDays (z - 1) = (y, m, d) ->
    (1 <= y <= 9999)%Z ->
    (- Cal.msPerDay <= LocalTZA (z * Cal.msPerDay) < 0)%Z ->
    reload (DateAt (z * Cal.msPerDay))
    = Some (DateAt (z * Cal.msPerDay - Cal.msPerDay)).
Proof.
  intros H z y m d Hymd Hy Hoff.
  assert (Hl : localYMD (z * Cal.msPerDay) = (y, m, d)).
  { unfold localYMD, LocalTime.
    rewrite Day_before_midnight by exact Hoff. exact Hymd. }
  rewrite (reload_is_utc_midnight Hl Hy).
  unfold LocalTime. rewrite Day_before_midnight by exact Hoff.
  do 2 f_equal. ring.
Qed.

Lemma X14_reloaded_date_drifts_west_of_utc_witness :
  reload (H := new_york_host) (DateAt 1710460800000)
  = Some (DateAt 1710374400000).
Proof.
  exact (@X14_reloaded_date_drifts_west_of_utc new_york_host 19797
           2024 3 14 ltac:(vm_compute; reflexivity) ltac:(lia)
           ltac:(vm_compute; split; [discriminate|reflexivity])).
Defined.

(** ** Progress texts *)

Lemma uintUnits_digits (u : Decimal.uint) :
  forallb isDigit (DateFns.uintUnits u) = true.
Proof. induction u; cbn [DateFns.uintUnits forallb]; auto. Qed.

Lemma of_uint_acc_value (u : Decimal.uint) (acc : positive) :
  N.pos (Pos.of_uint_acc u acc)
  = fold_left (fun a d => (10 * a + d)%N)
              (map (fun c => (c - 48)%N) (DateFns.uintUnits u)) (N.pos acc).
Proof.
  revert acc.
  induction u; intros acc;
    cbn [Pos.of_uint_acc DateFns.uintUnits map fold_left];
    try reflexivity; rewrite IHu; f_equal; lia.
Qed.

(** The digits of a decimal numeral denote the number it stands for. *)
Lemma decimalValue_uintUnits (u : Decimal.uint) :
  decimalValue (DateFns.uintUnits u) = N.of_uint u.
Proof.
  unfold decimalValue, mathInt, N.of_uint.
  induction u;
    cbn [Pos.of_uint DateFns.uintUnits map fold_left];
    try reflexivity;
    try (rewrite of_uint_acc_value; f_equal; lia).
  exact IHu.
Qed.

Lemma decimalValue_toDecimal (n : N) :
  decimalValue (DateFns.toDecimal n) = n.
Proof.
  unfold DateFns.toDecimal. rewrite decimalValue_uintUnits.
  apply DecimalN.Unsigned.of_to.
Qed.

Lemma toDecimal_not_nil (n : N) : DateFns.toDecimal n <> [].
Proof.
  intros E. pose proof (decimalValue_toDecimal n) as Hv.
  rewrite E in Hv. cbn in Hv. subst n. discriminate E.
Qed.

(** [parseInt] of a run of digits is the Number of what they denote. *)
Lemma parseInt10_digits (s : jsstring) :
  s <> [] -> forallb isDigit s = true ->
  parseInt10 s = numberOf false (decimalValue s).
Proof.
  intros Hne Hd.
  pose proof (@parseInt10_run [] [] s [] eq_refl (or_introl eq_refl)
                Hne Hd eq_refl) as Hp.
  cbn [app] in Hp. rewrite app_nil_r in Hp. exact Hp.
Qed.

(** X15: a progress text that is the decimal text of a natural number
    [n] of at most 2^53, as [String(n)] writes it, gives the progress
    [n]: in the range where every integer is a Number, writing a number
    and reading it back with [parseInt] is the identity. *)
Theorem X15_progress_of_a_decimal_text :
  forall (H : Host) (task : option Task.t) (teamMembers : list Member.t)
         (data : Form.data) (n : N),
    (n <= maxExact)%N ->
    Form.progress data = DateFns.toDecimal n ->
    Payload.progress (Dialog.submission task teamMembers data)
    = Num (Z.of_N n).
Proof.
  intros H task teamMembers data n Hn E.
  unfold Dialog.submission; cbn [Payload.progress]. rewrite E.
  rewrite parseInt10_digits.
  - rewrite decimalValue_toDecimal. apply (numberOf_exact false Hn).
  - apply toDecimal_not_nil.
  - apply uintUnits_digits.
Qed.

Lemma X15_progress_of_a_decimal_text_witness :
  (75 <= maxExact)%N
  /\ Payload.progress
       (Dialog.submission (H := utc_host) None []
          (with_progress (js "75") blank_form))
     = Num 75.
Proof.
  assert (Hn : (75 <= maxExact)%N) by (vm_compute; discriminate).
  split; [exact Hn|].
  exact (@X15_progress_of_a_decimal_text utc_host None []
           (with_progress (js "75") blank_form) 75 Hn eq_refl).
Defined.

(** ** Tags, there and back *)

Lemma split_without_sep sep (p : jsstring) :
  ~ In sep p -> split sep p = [p].
Proof.
  induction p as [|c p IH]; intros Hn; cbn [split]; [reflexivity|].
  destruct (N.eqb_spec c sep) as [->|Hc].
  - exfalso. apply Hn. left; reflexivity.
  - rewrite IH; [reflexivity|]. intros I. apply Hn. right; exact I.
Qed.

Lemma split_app_sep sep (p rest : jsstring) :
  ~ In sep p -> split sep (p ++ sep :: rest) = p :: split sep rest.
Proof.
  induction p as [|c p IH]; intros Hn; cbn [app split].
  - rewrite N.eqb_refl. reflexivity.
  - destruct (N.eqb_spec c sep) as [->|Hc].
    + exfalso. apply Hn. left; reflexivity.
    + rewrite IH; [reflexivity|]. intros I. apply Hn. right; exact I.
Qed.

(** Cutting at the separators what was joined with them gives the pieces
    back, when no piece holds a separator. *)
Lemma split_join sep (pieces : list jsstring) :
  pieces <> [] -> Forall (fun p => ~ In sep p) pieces ->
  split sep (join sep pieces) = pieces.
Proof.
  induction pieces as [|p rest IH]; intros Hne Hf; [contradiction|].
  inversion Hf as [|? ? Hp Hrest]; subst.
  destruct rest as [|q rest].
  - cbn [join]. apply split_without_sep; exact Hp.
  - change (join sep (p :: q :: rest))
      with (p ++ sep :: join sep (q :: rest)).
    rewrite split_app_sep by exact Hp.
    rewrite IH; [reflexivity|discriminate|exact Hrest].
Qed.

Lemma rev_head_is_last (c : N) (r : jsstring) :
  exists t, rev (c :: r) = last (c :: r) c :: t.
Proof.
  assert (Hne : c :: r <> []) by discriminate.
  pose proof (app_removelast_last c Hne) as E.
  exists (rev (removelast (c :: r))).
  transitivity (rev (removelast (c :: r) ++ [last (c :: r) c])).
  - f_equal. exact E.
  - apply rev_unit.
Qed.

(** [trim] leaves a text with no white space at either end as it is. *)
Lemma trim_of_trimmed (s : jsstring) : isTrimmed s = true -> trim s = s.
Proof.
  destruct s as [|c r]; [reflexivity|].
  unfold isTrimmed. rewrite andb_true_iff, !negb_true_iff. intros [Hc Hl].
  unfold trim, trimEnd.
  rewrite (@trimStart_fixed (c :: r) c r eq_refl Hc).
  destruct (rev_head_is_last c r) as [t Et].
  rewrite (@trimStart_fixed (rev (c :: r)) _ t Et Hl).
  apply rev_involutive.
Qed.

Lemma In_trimStart x (s : jsstring) : In x (trimStart s) -> In x s.
Proof.
  induction s as [|c s IH]; cbn [trimStart]; auto.
  destruct (isWhiteSpace c); auto. intros I. right. auto.
Qed.

Lemma In_trim x (s : jsstring) : In x (trim s) -> In x s.
Proof.
  unfold trim, trimEnd. intros I.
  apply In_trimStart. apply in_rev. apply In_trimStart.
  apply in_rev in I. exact I.
Qed.

Lemma join_not_nil sep (pieces : list jsstring) :
  pieces <> [] -> pieces <> [[]] -> join sep pieces <> [].
Proof.
  destruct pieces as [|p [|q rest]]; intros H1 H2.
  - contradiction.
  - cbn [join]. intros ->. contradiction.
  - change (join sep (p :: q :: rest))
      with (p ++ sep :: join sep (q :: rest)).
    intros E. apply app_eq_nil in E. destruct E as [_ E]. discriminate E.
Qed.

Lemma map_trim_of_trimmed (ts : list jsstring) :
  Forall (fun tag => isTrimmed tag = true) ts -> map trim ts = ts.
Proof.
  induction 1 as [|tag l Htag _ IH]; cbn [map]; [reflexivity|].
  rewrite (trim_of_trimmed _ Htag), IH. reflexivity.
Qed.

(** The tags read from the joined text of clean tags are those tags. *)
Lemma tags_of_joined (ts : list jsstring) :
  ts <> [] -> ts <> [[]] ->
  Forall (fun tag => isTrimmed tag = true) ts ->
  Forall (fun tag => ~ In comma tag) ts ->
  Dialog.tags (Val (join comma ts)) = ts.
Proof.
  intros Hne Hne' Ht Hc.
  pose proof (join_not_nil comma Hne Hne') as Hj.
  destruct (join comma ts) as [|c r] eqn:E; [contradiction|].
  rewrite tags_text, <- E, split_join by assumption.
  apply map_trim_of_trimmed; exact Ht.
Qed.

(** X16: tags that are clean (no comma inside, no white space at either
    end), joined with commas and typed into the form, come out of the
    submission as the same tags in the same order; only the lone empty
    tag, whose text is empty, does not. *)
Theorem X16_tags_of_joined_text :
  forall (H : Host) (task : option Task.t) (teamMembers : list Member.t)
         (data : Form.data) (ts : list jsstring),
    ts <> [] -> ts <> [[]] ->
    Forall (fun tag => isTrimmed tag = true) ts ->
    Forall (fun tag => ~ In comma tag) ts ->
    Form.tags data = Val (join comma ts) ->
    Payload.tags (Dialog.submission task teamMembers data) = Some ts.
Proof.
  intros H task teamMembers data ts Hne Hne' Ht Hc E.
  rewrite submission_tags, E, (tags_of_joined Hne Hne' Ht Hc).
  destruct ts; [contradiction|reflexivity].
Qed.

Lemma X16_tags_of_joined_text_witness :
  Payload.tags
    (Dialog.submission (H := utc_host) None []
       (with_tags (Val (js "home,pay rent,")) blank_form))
  = Some [js "home"; js "pay rent"; js ""].
Proof.
  refine (@X16_tags_of_joined_text utc_host None []
            (with_tags (Val (js "home,pay rent,")) blank_form)
            [js "home"; js "pay rent"; js ""] _ _ _ _ eq_refl).
  - discriminate.
  - discriminate.
  - repeat constructor.
  - repeat constructor; vm_compute; intuition discriminate.
Defined.

(** X17: the tags of a submission are a fixed point of the handler:
    joined with commas and submitted again they come out unchanged,
    unless they are the lone empty tag of a blank text. *)
Theorem X17_tags_are_stable :
  forall (H : Host) (task : option Task.t) (teamMembers : list Member.t)
         (data again : Form.data) (ts : list jsstring),
    Payload.tags (Dialog.submission task teamMembers data) = Some ts ->
    ts <> [[]] ->
    Form.tags again = Val (join comma ts) ->
    Payload.tags (Dialog.submission task teamMembers again) = Some ts.
Proof.
  intros H task teamMembers data again ts Hout Hne' E.
  rewrite submission_tags in Hout.
  destruct (Form.tags data) as [| |[|c r]] eqn:Hraw;
    try discriminate Hout.
  rewrite tags_text in Hout.
  pose proof (split_not_nil comma (c :: r)) as Hn.
  destruct (split comma (c :: r)) as [|p ps] eqn:Hs; [contradiction|].
  rewrite length_map in Hout. cbn [length Nat.ltb Nat.leb] in Hout.
  injection Hout as <-.
  assert (Hc : Forall (fun tag => ~ In comma tag) (map trim (p :: ps))).
  { pose proof (split_no_sep comma (c :: r)) as Hf. rewrite Hs in Hf.
    apply Forall_forall. intros tag I. apply in_map_iff in I.
    destruct I as [q [<- Iq]]. intros It. apply In_trim in It.
    rewrite Forall_forall in Hf. exact (Hf q Iq It). }
  assert (Ht : Forall (fun tag => isTrimmed tag = true) (map trim (p :: ps))).
  { apply Forall_forall. intros tag I. apply in_map_iff in I.
    destruct I as [q [<- _]]. apply trim_isTrimmed. }
  assert (Hne : map trim (p :: ps) <> []) by discriminate.
  rewrite submission_tags, E.
  change (trim p :: map trim ps) with (map trim (p :: ps)).
  rewrite (tags_of_joined Hne Hne' Ht Hc). reflexivity.
Qed.

Lemma X17_tags_are_stable_witness :
  Payload.tags
    (Dialog.submission (H := utc_host) None []
       (with_tags (Val (js "a,b,,c")) blank_form))
  = Some [js "a"; js "b"; js ""; js "c"].
Proof.
  refine (@X17_tags_are_stable utc_host None []
            (with_tags (Val (js " a, b ,,c")) blank_form)
            (with_tags (Val (js "a,b,,c")) blank_form)
            [js "a"; js "b"; js ""; js "c"] eq_refl _ eq_refl).
  discriminate.
Defined.

(** ** Editing and creating *)

(** X18: the submission carries an [id] exactly when the dialog is titled
    ['Edit Task'], and then it is the id of the task being edited; a
    missing task and a task with an empty id are both titled
    ['Add New Task'] and submitted without [id]. *)
Theorem X18_id_goes_with_the_title :
  forall (H : Host) (task : option Task.t) (teamMembers : list Member.t)
         (data : Form.data),
    let out := Payload.id (Dialog.submission task teamMembers data) in
    (forall id, out = Some id <->
       (exists t, task = Some t /\ Task.id t = id /\ id <> []))
    /\ (out <> None <-> DialogEffects.dialogTitle task = js "Edit Task")
    /\ (out = None <-> DialogEffects.dialogTitle task = js "Add New Task").
Proof.
  intros H task teamMembers data out. subst out.
  unfold Dialog.submission, DialogEffects.dialogTitle; cbn [Payload.id].
  destruct task as [t|]; [destruct (Task.id t) as [|c r] eqn:Hid|];
    cbn [truthy]; (split; [|split]).
  - intros id. split; [discriminate|].
    intros (t' & E & Ht & Hne). injection E as <-. congruence.
  - split; [contradiction|discriminate].
  - split; reflexivity.
  - intros id. split.
    + intros E. injection E as <-. exists t. repeat split; auto. discriminate.
    + intros (t' & E & Ht & _). injection E as <-. congruence.
  - split; [reflexivity|discriminate].
  - split; discriminate.
  - intros id. split; [discriminate|]. intros (t' & E & _). discriminate E.
  - split; [contradiction|discriminate].
  - split; reflexivity.
Qed.

(** ** Which teams are listed *)

(** X19: on a store without faults ahead, [getTeams] returns exactly the
    teams of which the user is a member: a team is listed if and only if
    it is a row of [teams] and some row of [team_members] joins the user
    to it; the teams come in the order of the table. *)
Theorem X19_getTeams_lists_the_users_teams :
  forall (userId : jsstring) (st : Store.t),
    Store.faults st = [] ->
    exists listed,
      fst (Api.getTeams userId (start st)) = Returned listed
      /\ listed = teamsOfUser userId st
      /\ forall tm,
           In tm listed <->
           In tm (Store.teams st)
           /\ exists r, In r (Store.team_members st)
                        /\ TeamMemberRow.user_id r = userId
                        /\ TeamMemberRow.team_id r = Team.id tm.
Proof.
  intros userId st Hf. exists (teamsOfUser userId st).
  split; [apply getTeams_on_store; exact Hf|]. split; [reflexivity|].
  intros tm. unfold teamsOfUser. rewrite filter_In, existsb_exists.
  split.
  - intros [It [x [Ix Ex]]]. split; [exact It|].
    apply in_map_iff in Ix. destruct Ix as [r [<- Ir]].
    apply filter_In in Ir. destruct Ir as [Ir Eu].
    apply str_eqb_eq in Eu, Ex. exists r. auto.
  - intros [It [r [Ir [Eu Et]]]]. split; [exact It|].
    exists (TeamMemberRow.team_id r). split.
    + apply in_map_iff. exists r. split; [reflexivity|].
      apply filter_In. split; [exact Ir|]. apply str_eqb_eq; exact Eu.
    + apply str_eqb_eq. symmetry; exact Et.
Qed.

Lemma X19_getTeams_lists_the_users_teams_witness :
  exists listed,
    fst (Api.getTeams (js "u1") (start (sample_store []))) = Returned listed
    /\ listed = teamsOfUser (js "u1") (sample_store []).
Proof.
  destruct (@X19_getTeams_lists_the_users_teams (js "u1") (sample_store [])
              eq_refl) as (listed & Hl & He & _).
  exists listed. split; [exact Hl|exact He].
Defined.

(** ** The first session *)

(** X20: on every service, [getInitialSession] returns and never throws,
    sends exactly the session call and leaves [loading] off.  When the
    call resolves with data, the provider takes the session of the data
    and that session's user (none for no session); when it is rejected or
    resolves without data, session and user stay as they were. *)
Theorem X20_getInitialSession_settles :
  forall (W : Type) (S : Service W) (s : Page W),
    let out := snd (Auth.getInitialSession s) in
    fst (Auth.getInitialSession s) = Returned tt
    /\ loading out = false
    /\ asked out = asked s ++ [inr GetSession]
    /\ toasts out = toasts s
    /\ match fst (auth GetSession (service s)) with
       | AuthResolved (Some x) _ =>
           session out = x /\ user out = option_map AuthSession.user x
       | AuthResolved None _ | AuthRejected _ =>
           session out = session s /\ user out = user s
       end.
Proof.
  intros W S s out. subst out.
  unfold Auth.getInitialSession, pfinally, pcatch, pbind, call, setLoading,
    print.
  cbn [service asked printed teams session user loading toasts].
  destruct (auth GetSession (service s)) as [r w].
  destruct r as [[x|] m | e]; cbn; auto 10.
Qed.
